(** * Splipy curve factory: a shallow embedding of [splipy/curve_factory.py]

    Python floats are idealised as real numbers ([R]); [math.sqrt], [math.cos],
    [math.sin], [math.pi] and [math.ceil] are the real functions [sqrt], [cos],
    [sin], [PI] and [Zceil].  Python exceptions are the constructors of
    [exception]; a function that may raise returns a [result]. *)

From Stdlib Require Import String Reals ZArith Lia Lra Bool Arith List.
From Stdlib Require Import Sorted Permutation.
Import ListNotations.
Open Scope R_scope.

(** ** Exceptions and the error monad *)

(** The exceptions of Python and numpy that the factory can meet.
    [NotImplementedError] is raised by no line of the factory; the tabulated
    collaborators further down raise it outside their table. *)

Inductive exception : Type :=
| ValueError (msg : string)
| TypeError
| AttributeError
| NameError (name : string)
| IndexError
| ZeroDivisionError
| LinAlgError
| NotImplementedError.

Inductive result (A : Type) : Type :=
| Ok (a : A)
| Raise (e : exception).

Arguments Ok {A} a.
Arguments Raise {A} e.

Definition bind {A B : Type} (m : result A) (k : A -> result B) : result B :=
  match m with
  | Ok a => k a
  | Raise e => Raise e
  end.

Notation "x <- m ;; k" := (bind m (fun x => k))
  (at level 61, m at next level, right associativity).
Notation "' pat <- m ;; k" := (bind m (fun x => match x with pat => k end))
  (at level 61, pat pattern, m at next level, right associativity).

Definition returns {A : Type} (m : result A) : Prop := exists a, m = Ok a.

(** ** Python sequences *)

Module Py.

Section Sequences.
Context {A : Type}.

(** [l[i]] with Python's negative indices; [None] stands for an index out of
    range. *)
Definition index (len : nat) (i : Z) : option nat :=
  let j := if (i <? 0)%Z then (i + Z.of_nat len)%Z else i in
  if ((0 <=? j) && (j <? Z.of_nat len))%Z then Some (Z.to_nat j) else None.

Definition getitem (l : list A) (i : Z) : result A :=
  match index (length l) i with
  | Some j => match nth_error l j with
              | Some a => Ok a
              | None => Raise IndexError
              end
  | None => Raise IndexError
  end.

(** [l[i] = v] *)
Definition setitem (l : list A) (i : Z) (v : A) : result (list A) :=
  match index (length l) i with
  | Some j => Ok (firstn j l ++ v :: skipn (S j) l)
  | None => Raise IndexError
  end.

(** [del l[i]] *)
Definition delitem (l : list A) (i : Z) : result (list A) :=
  match index (length l) i with
  | Some j => Ok (firstn j l ++ skipn (S j) l)
  | None => Raise IndexError
  end.

(** A slice bound, clamped into [0 .. len] the way Python does. *)
Definition bound (len : nat) (i : Z) : nat :=
  if (i <? 0)%Z then Z.to_nat (Z.max 0 (i + Z.of_nat len))
  else Nat.min (Z.to_nat i) len.

(** [l[start:stop]]; a missing bound is [None]. *)
Definition slice (l : list A) (start stop : option Z) : list A :=
  let len := length l in
  let s := match start with Some i => bound len i | None => 0%nat end in
  let e := match stop with Some i => bound len i | None => len end in
  firstn (e - s) (skipn s l).

End Sequences.

(** [range(n)] *)
Definition range (n : Z) : list Z := map Z.of_nat (seq 0 (Z.to_nat n)).

End Py.

(** ** numpy arrays *)

Definition matrix : Type := list (list R).

(** Width of a 2-D array given as the list of its rows (an array without rows
    is given width 0). *)
Definition ncols (m : matrix) : nat := length (hd [] m).

(** The element type of an array: [np.array] makes an [int64] array of
    Python integers and a [float64] array as soon as one entry is a float.
    The entries of an [int64] array are integers, given as reals like all
    numbers here. *)
Inductive dtype : Type :=
| int64
| float64.

(** The cast of a float to an integer, which drops the fractional part. *)
Definition trunc (v : R) : Z := if Rle_dec 0 v then Zfloor v else Zceil v.

(** A value as it is stored into an array of the given dtype.  The cast to
    [int64] is the truncation for a value within the range of [int64];
    beyond it the outcome of numpy depends on the platform, and the
    statements on [int64] arrays keep to that range. *)
Definition astype (d : dtype) (v : matrix) : matrix :=
  match d with
  | float64 => v
  | int64 => map (map (fun c => IZR (trunc c))) v
  end.

(** What the caller passes as a point matrix: a plain Python list of points or
    a 2-D numpy array. *)
Inductive matrix_like : Type :=
| PyList (rows : list (list R))
| NdArray (d : dtype) (rows : matrix).

Definition rows_of (x : matrix_like) : matrix :=
  match x with PyList r => r | NdArray _ r => r end.

(** [x.dtype]; it is never asked of a list, on which reading [x.shape] fails
    first. *)
Definition dtype_of (x : matrix_like) : dtype :=
  match x with PyList _ => float64 | NdArray d _ => d end.

(** [len(x)] *)
Definition len (x : matrix_like) : nat := length (rows_of x).

(** [np.matrix(x)], [np.array(x)]: wrapping accepts both. *)
Definition np_matrix (x : matrix_like) : matrix := rows_of x.

(** [x[start:stop, :]]: a tuple index, which a list rejects. *)
Definition getitem2 (x : matrix_like) (start stop : option Z) : result matrix :=
  match x with
  | PyList _ => Raise TypeError
  | NdArray _ r => Ok (Py.slice r start stop)
  end.

(** [x.shape] *)
Definition shape (x : matrix_like) : result (nat * nat) :=
  match x with
  | PyList _ => Raise AttributeError
  | NdArray _ r => Ok (length r, ncols r)
  end.

(** [np.resize(a, (r, c))]: the flattened data repeated cyclically (zeros when
    there is no data); the dtype is that of [a]. *)
Definition np_resize (a : matrix) (r c : nat) : matrix :=
  let flat := concat a in
  map (fun i => map (fun j => nth ((i * c + j) mod length flat) flat 0) (seq 0 c))
      (seq 0 r).

(** numpy broadcasting of a 2-D value to the shape [(k, d)]. *)
Definition broadcast_to (v : matrix) (k d : nat) : result matrix :=
  let r := length v in
  let c := ncols v in
  if ((r =? k)%nat || (r =? 1)%nat) && ((c =? d)%nat || (c =? 1)%nat) then
    Ok (map (fun i =>
               let row := nth (if (r =? 1)%nat then 0%nat else i) v [] in
               map (fun j => nth (if (c =? 1)%nat then 0%nat else j) row 0) (seq 0 d))
            (seq 0 k))
  else Raise (ValueError "could not broadcast input array").

(** [m[start:, :] = v] for a 2-D value [v] and an array [m] of dtype [d]: the
    value is broadcast to the rows of the slice and cast to [d]. *)
Definition setitem_rows (d : dtype) (m : matrix) (start : Z) (v : matrix)
    : result matrix :=
  let s := Py.bound (length m) start in
  vb <- broadcast_to v (length m - s) (ncols m) ;;
  Ok (firstn s m ++ astype d vb).

(** [m[start:, :] = c] for a scalar [c] that every dtype holds as it is (the
    factory writes 0). *)
Definition fill_rows (m : matrix) (start : Z) (c : R) : matrix :=
  let s := Py.bound (length m) start in
  firstn s m ++ repeat (repeat c (ncols m)) (length m - s).

(** [np.linalg.norm(np.array(x1) - np.array(x0))] *)
Definition vsub (a b : list R) : list R :=
  map (fun p => fst p - snd p) (combine a b).

Definition np_linalg_norm (v : list R) : R :=
  sqrt (fold_right (fun c acc => c * c + acc) 0 v).

(** [sorted(l)] *)
Fixpoint insert_sorted (a : R) (l : list R) : list R :=
  match l with
  | [] => [a]
  | b :: l' => if Rle_dec a b then a :: l else b :: insert_sorted a l'
  end.

Definition sorted (l : list R) : list R := fold_right insert_sorted [] l.

(** ** Data model *)

(** [class Boundary] *)
Inductive Boundary : Type :=
| FREE
| NATURAL
| HERMITE
| PERIODIC
| TANGENT
| TANGENTNATURAL.

Definition Boundary_eqb (a b : Boundary) : bool :=
  match a, b with
  | FREE, FREE | NATURAL, NATURAL | HERMITE, HERMITE
  | PERIODIC, PERIODIC | TANGENT, TANGENT | TANGENTNATURAL, TANGENTNATURAL => true
  | _, _ => false
  end.

(** Modelled from the spec: the basis object of [splipy] is not part of this
    file.  It is "order [k], knot vector, periodicity flag/continuity order";
    [periodic] is [None] where the call leaves the third argument out. *)
Record basis : Type := Basis {
  order : nat;
  knots : list R;
  periodic : option Z
}.

(** Modelled from the spec: the call [BSplineBasis(order, knots, periodic)]
    "fails if knot vector length is inconsistent with order".  An order-[k]
    basis needs at least [2 k] knots; with fewer the constructor raises
    ValueError. *)
Definition BSplineBasis (order : nat) (knots : list R) (periodic : option Z)
    : result basis :=
  if (length knots <? 2 * order)%nat
  then Raise (ValueError "knot vector has too few elements")
  else Ok (Basis order knots periodic).

(** Modelled from the spec: the curve object of [splipy] is not part of this
    file.  [Curve(basis, controlPoints, rational=false)] wraps the basis and
    the control points; for a rational curve the last column of each control
    point is its weight.  The constructor's checks on the control points
    (rows of one dimension) are not modelled: the statements on control
    points that the caller supplies assume rows of one dimension. *)
Record curve : Type := Curve {
  curve_basis : basis;
  controlpoints : matrix;
  rational : bool
}.

(** The collaborators the factory calls: the basis evaluator of [splipy], the
    solvers of [numpy.linalg], the in-place scaling [curve *= r] and the plane
    placement of [splipy.utils]. *)
Class Collaborators : Type := {
  (** [basis.evaluate(t, d)], also written [basis(t, d=d)]; a scalar [t] is
      the one-element list. *)
  evaluate : basis -> list R -> nat -> result matrix;
  (** [basis.greville()] *)
  greville : basis -> list R;
  (** [np.linalg.solve(N, x)] *)
  np_linalg_solve : matrix -> matrix -> result matrix;
  (** first component of [np.linalg.lstsq(N, x)] *)
  np_linalg_lstsq : matrix -> matrix -> result matrix;
  (** [result *= r] *)
  imul : curve -> R -> curve;
  flip_and_move_plane_geometry : curve -> list R -> list R -> curve
}.

(** ** The factory functions *)

Section CurveFactory.
Context `{Collaborators}.

(** One pass of the knot loop of [polygon]: the Euclidean distance from the
    previous point is added to the last knot. *)
Definition polygon_knot_step (st : list R * list R) (pt : list R) : list R * list R :=
  let '(knot, prevPt) := st in
  let dist := fold_left (fun dist p => dist + (snd p - fst p) ^ 2) (combine prevPt pt) 0 in
  (knot ++ [last knot 0 + sqrt dist], pt).

(** One pass of the [relative] loop of [polygon]: the point is replaced by
    its sum with the point before it, itself already replaced. *)
Definition polygon_relative_step (acc : list (list R)) (pt : list R) : list (list R) :=
  acc ++ [map (fun p => fst p + snd p) (combine (last acc []) pt)].

(** [polygon(points..., relative=...)], [points] being the sequence of points
    after the unpacking of a single argument. *)
Definition polygon (points : list (list R)) (relative : bool) : result curve :=
  prevPt <- Py.getitem points 0 ;;
  let knot := [0; 0] in
  let '(knot, _) := fold_left polygon_knot_step (Py.slice points (Some 1%Z) None) (knot, prevPt) in
  let knot := knot ++ [last knot 0] in
  let points :=
    if relative then
      match points with
      | [] => []
      | p0 :: rest => fold_left polygon_relative_step rest [p0]
      end
    else points in
  b <- BSplineBasis 2 knot None ;;
  Ok (Curve b points false).

(** [circle(r, center, normal, type)] *)
Definition circle (r : R) (center normal : list R) (type : string) : result curve :=
  if Rle_dec r 0 then Raise (ValueError "radius needs to be positive") else
  result <-
    (if (type =? "p2C0")%string || (type =? "C0p2")%string then
       let w := 1 / sqrt 2 in
       let controlpoints := [[1; 0; 1];
                             [w; w; w];
                             [0; 1; 1];
                             [-w; w; w];
                             [-1; 0; 1];
                             [-w; -w; w];
                             [0; -1; 1];
                             [w; -w; w]] in
       let knot := map (fun k => k / 4 * 2 * PI)
                       [-1; 0; 0; 1; 1; 2; 2; 3; 3; 4; 4; 5] in
       b <- BSplineBasis 3 knot (Some 0%Z) ;;
       Ok (Curve b controlpoints true)
     else if (type =? "p4C1")%string || (type =? "C1p4")%string then
       let w := 2 * sqrt 2 / 3 in
       let a := 1 / 2 / sqrt 2 in
       let b := 1 / 6 * (4 * sqrt 2 - 1) in
       let controlpoints := [[ 1; -a; 1];
                             [ 1;  a; 1];
                             [ b;  b; w];
                             [ a;  1; 1];
                             [-a;  1; 1];
                             [-b;  b; w];
                             [-1;  a; 1];
                             [-1; -a; 1];
                             [-b; -b; w];
                             [-a; -1; 1];
                             [ a; -1; 1];
                             [ b; -b; w]] in
       let knot := map (fun k => k / 4 * 2 * PI)
                       [-1; -1; 0; 0; 0; 1; 1; 1; 2; 2; 2; 3; 3; 3; 4; 4; 4; 5; 5] in
       b <- BSplineBasis 5 knot (Some 1%Z) ;;
       Ok (Curve b controlpoints true)
     else Raise (ValueError ("Unkown type: " ++ type))) ;;
  let result := imul result r in
  Ok (flip_and_move_plane_geometry result center normal).

(** One pass of the control-point loop of [circle_segment]. *)
Definition segment_step (r dt : R) (st : matrix * R) (i : Z) : matrix * R :=
  let '(cp, t) := st in
  let w := 1 - IZR (i mod 2) * (1 - cos dt) in
  let x := r * cos t in
  let y := r * sin t in
  (cp ++ [[x; y; w]], t + dt).

(** [circle_segment(theta, r, center, normal)] *)
Definition circle_segment (theta r : R) (center normal : list R) : result curve :=
  if Rlt_dec (2 * PI) (Rabs theta) then
    Raise (ValueError "theta needs to be in range [-2pi,2pi]") else
  if Rle_dec r 0 then Raise (ValueError "radius needs to be positive") else
  if Req_dec_T theta (2 * PI) then circle r center normal "p2C0" else
  let knot_spans := Zceil (theta / (2 * PI / 3)) in
  let knot := [0%Z] ++ flat_map (fun i => [i; i]) (Py.range (knot_spans + 1))
                    ++ [knot_spans] in
  let knot := map (fun k => IZR k / IZR (last knot 0%Z) * theta) knot in
  let n := ((knot_spans - 1) * 2 + 3)%Z in
  if (knot_spans =? 0)%Z then Raise ZeroDivisionError else
  let dt := theta / IZR knot_spans / 2 in
  let '(cp, _) := fold_left (segment_step r dt) (Py.range n) ([], 0) in
  b <- BSplineBasis 3 knot None ;;
  let result := Curve b cp true in
  Ok (flip_and_move_plane_geometry result center normal).

(** [interpolate(x, basis, t)] *)
Definition interpolate (x : matrix_like) (b : basis) (t : option (list R)) : result curve :=
  let x := np_matrix x in
  let t := match t with None => greville b | Some t => t end in
  N <- evaluate b t 0 ;;
  controlpoints <- np_linalg_solve N x ;;
  Ok (Curve b controlpoints false).

(** [least_square_fit(x, basis, t)] *)
Definition least_square_fit (x : matrix_like) (b : basis) (t : list R) : result curve :=
  let x := np_matrix x in
  N <- evaluate b t 0 ;;
  controlpoints <- np_linalg_lstsq N x ;;
  Ok (Curve b controlpoints false).

(** One pass of the loop that derives the parameter values from the points. *)
Definition default_parameter_step (t : list R) (p : list R * list R) : list R :=
  let '(x0, x1) := p in
  (* eucledian distance between two consecutive points *)
  let dist := np_linalg_norm (vsub x1 x0) in
  t ++ [last t 0 + dist].

(** Lines 286-291: the parameter values, the cumulative Euclidean distance
    between consecutive points when [t] is [None]. *)
Definition parameter_sample (x : matrix_like) (t : option (list R)) : result (list R) :=
  match t with
  | Some t => Ok t
  | None =>
      x_init <- getitem2 x None (Some (-1)%Z) ;;
      x_tail <- getitem2 x (Some 1%Z) None ;;
      Ok (fold_left default_parameter_step (combine x_init x_tail) [0])
  end.

(** Lines 293-299: the knot vector of the chosen boundary regime. *)
Definition cubic_curve_knot (boundary : Boundary) (t : list R) : result (list R) :=
  (* modify knot vector for chosen boundary conditions *)
  t_first <- Py.getitem t 0 ;;
  t_last <- Py.getitem t (-1) ;;
  let knot := repeat t_first 3 ++ t ++ repeat t_last 3 in
  match boundary with
  | FREE =>
      knot <- Py.delitem knot (-5) ;;
      Py.delitem knot 4
  | HERMITE => Ok (sorted (knot ++ Py.slice t (Some 1%Z) (Some (-1)%Z)))
  | _ => Ok knot
  end.

(** Lines 301-309: the basis on that knot vector. *)
Definition cubic_curve_basis (boundary : Boundary) (t : list R) : result basis :=
  knot <- cubic_curve_knot boundary t ;;
  (* create the interpolation basis and interpolation matrix on this *)
  match boundary with
  | PERIODIC =>
      a <- Py.getitem t (-3) ;; c <- Py.getitem t (-1) ;;
      knot <- Py.setitem knot 0 (a - c) ;;
      a <- Py.getitem t (-2) ;; c <- Py.getitem t (-1) ;;
      knot <- Py.setitem knot 1 (a - c) ;;
      a <- Py.getitem t (-1) ;; c <- Py.getitem t 1 ;;
      knot <- Py.setitem knot (-2) (a + c) ;;
      a <- Py.getitem t (-1) ;; c <- Py.getitem t 2 ;;
      knot <- Py.setitem knot (-1) (a + c) ;;
      BSplineBasis 4 knot (Some 1%Z)
  | _ => BSplineBasis 4 knot None
  end.

(** [cubic_curve(x, boundary, t, tangents)].  [tangents] is the 2-D value the
    caller supplies; the regimes that never read it ignore it. *)
Definition cubic_curve (x : matrix_like) (boundary : Boundary)
    (t : option (list R)) (tangents : matrix) : result curve :=
  let n := len x in
  t <- parameter_sample x t ;;
  b <- cubic_curve_basis boundary t ;;
  N <- evaluate b t 0 ;;
  (* add derivative boundary conditions if applicable *)
  ' (N, x) <-
    match boundary with
    | TANGENT =>
        t_first <- Py.getitem t 0 ;; t_last <- Py.getitem t (-1) ;;
        dn <- evaluate b [t_first; t_last] 1 ;;
        let N := np_resize N (length N + 2) (ncols N) in
        sh <- shape x ;;
        let d := dtype_of x in
        let x := np_resize (rows_of x) (fst sh + 2) (snd sh) in
        x <- setitem_rows d x (Z.of_nat n) tangents ;;
        N <- setitem_rows float64 N (Z.of_nat n) dn ;;
        Ok (N, NdArray d x)
    | TANGENTNATURAL =>
        t_first <- Py.getitem t 0 ;;
        dn <- evaluate b [t_first] 1 ;;
        let N := np_resize N (length N + 1) (ncols N) in
        sh <- shape x ;;
        let d := dtype_of x in
        let x := np_resize (rows_of x) (fst sh + 1) (snd sh) in
        x <- setitem_rows d x (Z.of_nat n) tangents ;;
        N <- setitem_rows float64 N (Z.of_nat n) dn ;;
        Ok (N, NdArray d x)
    | HERMITE =>
        (* [getBasis] is not defined anywhere *)
        Raise (NameError "getBasis")
    | _ => Ok (N, x)
    end ;;
  (* add double derivative boundary conditions if applicable *)
  ' (N, x) <-
    match boundary with
    | NATURAL | TANGENTNATURAL =>
        ' (ddn, new) <-
          match boundary with
          | NATURAL =>
              t_first <- Py.getitem t 0 ;; t_last <- Py.getitem t (-1) ;;
              ddn <- evaluate b [t_first; t_last] 2 ;;
              Ok (ddn, 2%nat)
          | _ =>
              t_last <- Py.getitem t (-1) ;;
              ddn <- evaluate b [t_last] 2 ;;
              Ok (ddn, 1%nat)
          end ;;
        let N := np_resize N (length N + new) (ncols N) in
        sh <- shape x ;;
        let d := dtype_of x in
        let x := np_resize (rows_of x) (fst sh + new) (snd sh) in
        N <- setitem_rows float64 N (- Z.of_nat new) ddn ;;
        let x := fill_rows x (- Z.of_nat new) 0 in
        Ok (N, NdArray d x)
    | _ => Ok (N, x)
    end ;;
  (* solve system to get controlpoints *)
  cp <- np_linalg_solve N (np_matrix x) ;;
  (* wrap it all into a curve and return *)
  Ok (Curve b cp false).

End CurveFactory.


(** ** Notions the statements below refer to *)

(** *** Knot vectors of [cubic_curve] *)

(** The baseline knot vector: [t] padded with its first and last value, three
    times each. *)
Definition padded (t : list R) : list R :=
  repeat (hd 0 t) 3 ++ t ++ repeat (last t 0) 3.

(** [l] without the entries whose position (counted from [i]) is in [ps]. *)
Fixpoint drop_positions {A : Type} (ps : list nat) (i : nat) (l : list A) : list A :=
  match l with
  | [] => []
  | a :: l' =>
      if existsb (Nat.eqb i) ps then drop_positions ps (S i) l'
      else a :: drop_positions ps (S i) l'
  end.

(** [l] without the entries at the Python indices [ps] of [l], all positions
    being read on [l] itself. *)
Definition without_indices (ps : list Z) (l : list R) : list R :=
  drop_positions
    (flat_map (fun p => match Py.index (length l) p with
                        | Some j => [j]
                        | None => []
                        end) ps)
    0 l.

(** The knot vector of the PERIODIC regime, written out. *)
Definition periodic_knot (t : list R) : list R :=
  let n := length t in
  let t_last := nth (n - 1) t 0 in
  [nth (n - 3) t 0 - t_last; nth (n - 2) t 0 - t_last; nth 0 t 0]
    ++ t ++ [t_last; t_last + nth 1 t 0; t_last + nth 2 t 0].

(** The tangent rows a regime asks for: 2, 1 or [n]. *)
Definition required_tangent_rows (boundary : Boundary) (n : nat) : option nat :=
  match boundary with
  | TANGENT => Some 2%nat
  | TANGENTNATURAL => Some 1%nat
  | HERMITE => Some n
  | _ => None
  end.

(** *** Linear systems *)

Definition dot (u v : list R) : R :=
  fold_right Rplus 0 (map (fun p => fst p * snd p) (combine u v)).

Definition column (m : matrix) (j : nat) : list R :=
  map (fun row => nth j row 0) m.

Definition matmul (a b : matrix) : matrix :=
  map (fun row => map (fun j => dot row (column b j)) (seq 0 (ncols b))) a.

Definition msub (a b : matrix) : matrix :=
  map (fun p => vsub (fst p) (snd p)) (combine a b).

Definition sumsq (m : matrix) : R :=
  fold_right (fun row acc => fold_right (fun c a => c * c + a) 0 row + acc) 0 m.

(** Squared residual of the control points [P] in the system [N P = X]. *)
Definition residual (N P X : matrix) : R := sumsq (msub (matmul N P) X).

Definition has_shape (m : matrix) (r c : nat) : Prop :=
  length m = r /\ Forall (fun row => length row = c) m.

(** What [np.linalg.lstsq] computes: control points of the right shape with
    the least residual, and of least norm among those. *)
Definition least_squares_solution (N X P : matrix) : Prop :=
  has_shape P (ncols N) (ncols X) /\
  forall Q, has_shape Q (ncols N) (ncols X) ->
    residual N P X <= residual N Q X /\
    (residual N Q X <= residual N P X -> sumsq P <= sumsq Q).

(** Number of basis functions of an open (non-periodic) basis. *)
Definition num_functions (b : basis) : nat := length (knots b) - order b.

(** *** Rational control points *)

(** Homogeneous form of the Cartesian point [p] with weight [w]. *)
Definition homogeneous (p : list R) (w : R) : list R := map (Rmult w) p ++ [w].

(** The weight of a rational control point: its last column. *)
Definition weight (row : list R) : R := last row 0.

Definition homogeneous_rows (cartesian : list (list R)) (weights : list R) : matrix :=
  map (fun pw => homogeneous (fst pw) (snd pw)) (combine cartesian weights).

(** Control polygon of the quadratic circle: corners and edge midpoints of the
    circumscribed square. *)
Definition square_polygon : list (list R) :=
  [[1; 0]; [1; 1]; [0; 1]; [-1; 1]; [-1; 0]; [-1; -1]; [0; -1]; [1; -1]].

Definition quadratic_weights : list R :=
  [1; 1 / sqrt 2; 1; 1 / sqrt 2; 1; 1 / sqrt 2; 1; 1 / sqrt 2].

(** Control polygon of the quartic circle, with [a = 1/(2 sqrt 2)] and the
    projected corner coordinate [b / w]. *)
Definition quartic_w : R := 2 * sqrt 2 / 3.
Definition quartic_a : R := 1 / (2 * sqrt 2).
Definition quartic_b : R := (4 * sqrt 2 - 1) / 6.

Definition quartic_polygon : list (list R) :=
  let a := quartic_a in
  let c := quartic_b / quartic_w in
  [[1; -a]; [1; a]; [c; c]; [a; 1]; [-a; 1]; [-c; c];
   [-1; a]; [-1; -a]; [-c; -c]; [-a; -1]; [a; -1]; [c; -c]].

Definition quartic_weights : list R :=
  let w := quartic_w in [1; 1; w; 1; 1; w; 1; 1; w; 1; 1; w].

(** Knots [k * pi / 2] of the full circle. *)
Definition quarter_turns (ks : list R) : list R := map (fun k => k * (PI / 2)) ks.

(** Control point [i] of an arc made of spans of half-angle [dt]: weight 1 on
    the circle for even [i], weight [cos dt] on the tangent intersection (at
    distance [r / cos dt]) for odd [i]. *)
Definition arc_weight (dt : R) (i : Z) : R :=
  if Z.even i then 1 else cos dt.

Definition arc_point (r dt : R) (i : Z) : list R :=
  [r / arc_weight dt i * cos (IZR i * dt); r / arc_weight dt i * sin (IZR i * dt)].

(** Control point [i] of the arc as the code stores it. *)
Definition segment_point (r dt : R) (i : Z) : list R :=
  [r * cos (IZR i * dt); r * sin (IZR i * dt); arc_weight dt i].

(** The knot vector [0, 0, 0, 1, 1, ..., n, n, n] of an arc of [n] spans,
    scaled to [[0, theta]]. *)
Definition arc_knot (spans : Z) (theta : R) : list R :=
  map (fun k => IZR k / IZR spans * theta)
      ([0%Z] ++ flat_map (fun i => [i; i]) (Py.range (spans + 1)) ++ [spans]).

(** *** Chord-length parametrization *)

Definition euclidean_distance (p q : list R) : R :=
  sqrt (fold_right Rplus 0 (map (fun c => (snd c - fst c) ^ 2) (combine p q))).

Fixpoint cumulative_distance (start : R) (prev : list R) (pts : list (list R)) : list R :=
  match pts with
  | [] => []
  | p :: rest =>
      let s := start + euclidean_distance prev p in
      s :: cumulative_distance s p rest
  end.

(** Order-2 knot vector whose spacings are the distances between consecutive
    points of [pts], first and last knot repeated once. *)
Definition chord_length_knots (pts : list (list R)) : list R :=
  match pts with
  | [] => []
  | p0 :: rest =>
      let ks := 0 :: cumulative_distance 0 p0 rest in
      [0] ++ ks ++ [last ks 0]
  end.

(** *** Contracts of the placement collaborators *)

(** A collaborator that moves or scales a rational curve keeps its basis, its
    rational flag and the weight of every control point. *)
Definition keeps_weights (f : curve -> curve) : Prop :=
  forall c,
    rational c = true ->
    curve_basis (f c) = curve_basis c /\
    rational (f c) = true /\
    map weight (controlpoints (f c)) = map weight (controlpoints c).

(** ** A tabulated instance of the collaborators

    The values of the real collaborators on the cubic Bezier basis over
    [[0, 1]] and on the linear basis over [[0, 1]], at the parameter values
    the examples below use; outside the table the evaluator and the solvers
    raise [NotImplementedError]. *)

Definition Rlist_eq_dec : forall a b : list R, {a = b} + {a <> b} :=
  list_eq_dec Req_dec_T.

Definition matrix_eq_dec : forall a b : matrix, {a = b} + {a <> b} :=
  list_eq_dec Rlist_eq_dec.

Arguments Rlist_eq_dec : simpl never.
Arguments matrix_eq_dec : simpl never.

Definition bezier_knots : list R := [0; 0; 0; 0; 1; 1; 1; 1].

Definition table_evaluate (b : basis) (ts : list R) (d : nat) : result matrix :=
  match order b, d with
  | 2%nat, 0%nat =>
      if Rlist_eq_dec (knots b) [0; 0; 1; 1] then
        if Rlist_eq_dec ts [0] then Ok [[1; 0]]
        else Raise NotImplementedError
      else Raise NotImplementedError
  | 4%nat, 0%nat =>
      if Rlist_eq_dec (knots b) bezier_knots then
        if Rlist_eq_dec ts [0; 1] then Ok [[1; 0; 0; 0]; [0; 0; 0; 1]]
        else Raise NotImplementedError
      else Raise NotImplementedError
  | 4%nat, 1%nat =>
      if Rlist_eq_dec (knots b) bezier_knots then
        if Rlist_eq_dec ts [0; 1] then Ok [[-3; 3; 0; 0]; [0; 0; -3; 3]]
        else if Rlist_eq_dec ts [0] then Ok [[-3; 3; 0; 0]]
        else Raise NotImplementedError
      else Raise NotImplementedError
  | 4%nat, 2%nat =>
      if Rlist_eq_dec (knots b) bezier_knots then
        if Rlist_eq_dec ts [0; 1] then Ok [[6; -12; 6; 0]; [0; 6; -12; 6]]
        else if Rlist_eq_dec ts [1] then Ok [[0; 6; -12; 6]]
        else Raise NotImplementedError
      else Raise NotImplementedError
  | _, _ => Raise NotImplementedError
  end.

(** The system of the cubic through [(0,0)] and [(1,0)] with end tangents
    [(1,0)], and its solution. *)
Definition tangent_system : matrix :=
  [[1; 0; 0; 0]; [0; 0; 0; 1]; [-3; 3; 0; 0]; [0; 0; -3; 3]].

Definition tangent_rhs : matrix := [[0; 0]; [1; 0]; [1; 0]; [1; 0]].

Definition tangent_solution : matrix := [[0; 0]; [1 / 3; 0]; [2 / 3; 0]; [1; 0]].

Definition table_solve (N X : matrix) : result matrix :=
  if matrix_eq_dec N tangent_system then
    if matrix_eq_dec X tangent_rhs then Ok tangent_solution
    else Raise NotImplementedError
  else Raise NotImplementedError.

Definition table_lstsq (N X : matrix) : result matrix :=
  if matrix_eq_dec N [[1; 0]] then
    if matrix_eq_dec X [[1; 2]] then Ok [[1; 2]; [0; 0]]
    else Raise NotImplementedError
  else Raise NotImplementedError.

(** Scaling multiplies the coordinates and leaves the weight column alone. *)
Definition scale_row (is_rational : bool) (r : R) (row : list R) : list R :=
  if is_rational then map (Rmult r) (removelast row) ++ [last row 0]
  else map (Rmult r) row.

Definition table_imul (c : curve) (r : R) : curve :=
  Curve (curve_basis c) (map (scale_row (rational c) r) (controlpoints c)) (rational c).

(** Sum of the [order - 1] knots after knot [i], divided by [order - 1]. *)
Definition table_greville (b : basis) : list R :=
  map (fun i => fold_right Rplus 0 (firstn (order b - 1) (skipn (S i) (knots b)))
                / INR (order b - 1))
      (seq 0 (num_functions b)).

(** The table has the default centre and normal only, where the placement
    leaves the curve where it is. *)
Definition table_place (c : curve) (center normal : list R) : curve := c.

Definition table : Collaborators := {|
  evaluate := table_evaluate;
  greville := table_greville;
  np_linalg_solve := table_solve;
  np_linalg_lstsq := table_lstsq;
  imul := table_imul;
  flip_and_move_plane_geometry := table_place
|}.

(** *** The full circle *)

Definition quadratic_tag (tag : string) : Prop :=
  tag = "p2C0"%string \/ tag = "C0p2"%string.

Definition quartic_tag (tag : string) : Prop :=
  tag = "p4C1"%string \/ tag = "C1p4"%string.

(** Order 3, periodic continuity 0, every quarter-turn knot doubled. *)
Definition quadratic_basis : basis :=
  Basis 3 (quarter_turns [-1; 0; 0; 1; 1; 2; 2; 3; 3; 4; 4; 5]) (Some 0%Z).

(** Order 5, periodic continuity 1, every quarter-turn knot tripled. *)
Definition quartic_basis : basis :=
  Basis 5
    (quarter_turns [-1; -1; 0; 0; 0; 1; 1; 1; 2; 2; 2; 3; 3; 3; 4; 4; 4; 5; 5])
    (Some 1%Z).

(** The twelve control points of the quartic circle as the code lists them,
    over [w], [a] and [b]. *)
Definition quartic_controlpoints (w a b : R) : matrix :=
  [[ 1; -a; 1]; [ 1;  a; 1]; [ b;  b; w]; [ a;  1; 1]; [-a;  1; 1]; [-b;  b; w];
   [-1;  a; 1]; [-1; -a; 1]; [-b; -b; w]; [-a; -1; 1]; [ a; -1; 1]; [ b; -b; w]].
(** ** The other constructors of the module *)

Section OtherConstructors.
Context `{Collaborators}.

(** One pass of the vertex loop of [n_gon]. *)
Definition n_gon_step (r dt : R) (st : matrix * list Z) (i : Z) : matrix * list Z :=
  let '(cp, knot) := st in
  (cp ++ [[r * cos (IZR i * dt); r * sin (IZR i * dt)]], knot ++ [i]).

(** [n_gon(n, r, center, normal)] *)
Definition n_gon (n : Z) (r : R) (center normal : list R) : result curve :=
  if Rle_dec r 0 then Raise (ValueError "radius needs to be positive") else
  if (n <? 3)%Z then Raise (ValueError "regular polygons need at least 3 sides") else
  let dt := 2 * PI / IZR n in
  let '(cp, knot) := fold_left (n_gon_step r dt) (Py.range n) ([], [(-1)%Z]) in
  let knot := knot ++ [n; (n + 1)%Z] in
  b <- BSplineBasis 2 (map IZR knot) (Some 0%Z) ;;
  let result := Curve b cp false in
  Ok (flip_and_move_plane_geometry result center normal).

End OtherConstructors.

(** ** Notions the further statements refer to *)

(** Squared Euclidean distance of two points of the plane. *)
Definition distance2 (p q : list R) : R :=
  (nth 0 q 0 - nth 0 p 0) ^ 2 + (nth 1 q 0 - nth 1 p 0) ^ 2.

(** Vertex [i] of the regular polygon of [n] sides and radius [r]. *)
Definition n_gon_vertex (n : Z) (r : R) (i : Z) : list R :=
  [r * cos (IZR i * (2 * PI / IZR n)); r * sin (IZR i * (2 * PI / IZR n))].

(** The rows that a boundary regime adds to the [n] sample rows. *)
Definition constraint_rows (boundary : Boundary) (n : nat) : nat :=
  match boundary with
  | FREE | PERIODIC => 0
  | NATURAL | TANGENT | TANGENTNATURAL => 2
  | HERMITE => n
  end.

(** The fewest parameter values on which a regime other than PERIODIC gets
    the 8 knots of an order-4 basis: FREE leaves [n + 4] knots, the other
    regimes have [n + 6] or more. *)
Definition fewest_values (boundary : Boundary) : nat :=
  match boundary with
  | FREE => 4
  | _ => 2
  end.

(** Running sums of a sequence of points: the first point, then each point
    added to the sum before it. *)
Fixpoint running_sums (acc : list R) (pts : list (list R)) : list (list R) :=
  match pts with
  | [] => []
  | p :: rest =>
      let s := map (fun c => fst c + snd c) (combine acc p) in
      s :: running_sums s rest
  end.

(** A 2-D array: every row as wide as the first. *)
Definition rectangular (m : matrix) : Prop := has_shape m (length m) (ncols m).

(** The values that the cast to [int64] truncates: those whose integer part
    is an [int64], between [- 2 ^ 63] and [2 ^ 63 - 1]. *)
Definition int64_range (v : matrix) : Prop :=
  Forall (Forall (fun c => - 9223372036854775808 - 1 < c < 9223372036854775808)) v.

(** The values a dtype stores by [astype]: every float for [float64], the
    range of [int64] for [int64]. *)
Definition storable (d : dtype) (v : matrix) : Prop :=
  match d with
  | float64 => True
  | int64 => int64_range v
  end.
(** * Facts about the embedding *)

(** ** Python sequences *)

Module PyFacts.
Import Py.

Lemma index_nat (len j : nat) :
  (j < len)%nat -> index len (Z.of_nat j) = Some j.
Proof.
  intros Hj. unfold index.
  destruct (Z.ltb_spec (Z.of_nat j) 0); [lia|].
  destruct (Z.leb_spec 0 (Z.of_nat j)); [|lia].
  destruct (Z.ltb_spec (Z.of_nat j) (Z.of_nat len)); [|lia].
  simpl. now rewrite Nat2Z.id.
Qed.

Lemma index_neg (len k : nat) :
  (1 <= k <= len)%nat -> index len (- Z.of_nat k) = Some (len - k)%nat.
Proof.
  intros Hk. unfold index.
  destruct (Z.ltb_spec (- Z.of_nat k) 0); [|lia].
  destruct (Z.leb_spec 0 (- Z.of_nat k + Z.of_nat len)); [|lia].
  destruct (Z.ltb_spec (- Z.of_nat k + Z.of_nat len) (Z.of_nat len)); [|lia].
  simpl. f_equal. lia.
Qed.

Lemma index_out_of_range (len : nat) (i : Z) :
  (Z.of_nat len <= i \/ i < - Z.of_nat len)%Z -> index len i = None.
Proof.
  intros Hi. unfold index.
  destruct (Z.ltb_spec i 0).
  - destruct (Z.leb_spec 0 (i + Z.of_nat len)); [lia|reflexivity].
  - destruct (Z.leb_spec 0 i); [|lia].
    destruct (Z.ltb_spec i (Z.of_nat len)); [lia|reflexivity].
Qed.

Lemma index_lt (len : nat) (i : Z) (j : nat) :
  index len i = Some j -> (j < len)%nat.
Proof.
  unfold index.
  destruct (((0 <=? (if (i <? 0)%Z then (i + Z.of_nat len)%Z else i))
             && ((if (i <? 0)%Z then (i + Z.of_nat len)%Z else i) <? Z.of_nat len))%Z)
    eqn:E; [|discriminate].
  intros [= <-]. apply andb_prop in E. destruct E as [E1 E2].
  apply Z.leb_le in E1. apply Z.ltb_lt in E2. lia.
Qed.

Lemma bound_nat (len j : nat) : bound len (Z.of_nat j) = Nat.min j len.
Proof.
  unfold bound. destruct (Z.ltb_spec (Z.of_nat j) 0); [lia|].
  now rewrite Nat2Z.id.
Qed.

Section Lists.
Context {A : Type}.
Implicit Types (l pre post : list A) (a v d : A).

Lemma getitem_nth l i j d :
  index (length l) i = Some j -> getitem l i = Ok (nth j l d).
Proof.
  intros Hi. unfold getitem. rewrite Hi.
  apply index_lt in Hi.
  destruct (nth_error l j) eqn:E.
  - now rewrite (nth_error_nth _ _ d E).
  - apply nth_error_None in E. lia.
Qed.

Lemma getitem_out_of_range l i :
  (Z.of_nat (length l) <= i \/ i < - Z.of_nat (length l))%Z ->
  getitem l i = Raise IndexError.
Proof. intros Hi. unfold getitem. now rewrite index_out_of_range. Qed.

Lemma getitem_first a l : getitem (a :: l) 0 = Ok a.
Proof. reflexivity. Qed.

Lemma getitem_last l a : getitem (l ++ [a]) (-1) = Ok a.
Proof.
  rewrite (getitem_nth _ _ (length l) a).
  - now rewrite nth_middle.
  - change (-1)%Z with (- Z.of_nat 1)%Z. rewrite index_neg.
    + f_equal. rewrite length_app. simpl. lia.
    + rewrite length_app. simpl. lia.
Qed.

Lemma firstn_middle pre a post : firstn (length pre) (pre ++ a :: post) = pre.
Proof. rewrite firstn_app, Nat.sub_diag, firstn_all. simpl. apply app_nil_r. Qed.

Lemma skipn_middle pre a post : skipn (S (length pre)) (pre ++ a :: post) = post.
Proof.
  rewrite skipn_app, skipn_all2 by lia.
  replace (S (length pre) - length pre)%nat with 1%nat by lia. reflexivity.
Qed.

Lemma index_middle_neg pre a post :
  index (length (pre ++ a :: post)) (- Z.of_nat (S (length post))) = Some (length pre).
Proof.
  rewrite index_neg; rewrite length_app; simpl; [f_equal|]; lia.
Qed.

Lemma index_middle pre a post :
  index (length (pre ++ a :: post)) (Z.of_nat (length pre)) = Some (length pre).
Proof. apply index_nat. rewrite length_app. simpl. lia. Qed.

Lemma setitem_middle pre a post v :
  setitem (pre ++ a :: post) (Z.of_nat (length pre)) v = Ok (pre ++ v :: post).
Proof.
  unfold setitem. now rewrite index_middle, firstn_middle, skipn_middle.
Qed.

Lemma setitem_middle_neg pre a post v :
  setitem (pre ++ a :: post) (- Z.of_nat (S (length post))) v = Ok (pre ++ v :: post).
Proof.
  unfold setitem. now rewrite index_middle_neg, firstn_middle, skipn_middle.
Qed.

Lemma delitem_middle pre a post :
  delitem (pre ++ a :: post) (Z.of_nat (length pre)) = Ok (pre ++ post).
Proof.
  unfold delitem. now rewrite index_middle, firstn_middle, skipn_middle.
Qed.

Lemma delitem_middle_neg pre a post :
  delitem (pre ++ a :: post) (- Z.of_nat (S (length post))) = Ok (pre ++ post).
Proof.
  unfold delitem. now rewrite index_middle_neg, firstn_middle, skipn_middle.
Qed.

End Lists.
End PyFacts.

(** ** The basis constructor *)

Lemma BSplineBasis_enough (k : nat) (knot : list R) (p : option Z) :
  (2 * k <= length knot)%nat -> BSplineBasis k knot p = Ok (Basis k knot p).
Proof.
  intros Hlen. unfold BSplineBasis.
  destruct (Nat.ltb_spec (length knot) (2 * k)) as [Hlt|_]; [lia|reflexivity].
Qed.

Lemma BSplineBasis_too_few (k : nat) (knot : list R) (p : option Z) :
  (length knot < 2 * k)%nat ->
  BSplineBasis k knot p = Raise (ValueError "knot vector has too few elements").
Proof.
  intros Hlen. unfold BSplineBasis.
  destruct (Nat.ltb_spec (length knot) (2 * k)) as [_|Hge]; [reflexivity|lia].
Qed.

Lemma BSplineBasis_fields (k : nat) (knot : list R) (p : option Z) (b : basis) :
  BSplineBasis k knot p = Ok b ->
  b = Basis k knot p /\ (2 * k <= length knot)%nat.
Proof.
  unfold BSplineBasis.
  destruct (Nat.ltb_spec (length knot) (2 * k)) as [Hlt|Hge]; [discriminate|].
  intros E. injection E as <-. split; [reflexivity|assumption].
Qed.
(** ** Tactics *)

(** Case analysis on every monadic step of a hypothesis that claims a
    result, and of the goal. *)
Ltac bind_inv :=
  repeat match goal with
  | E : Raise _ = Ok _ |- _ => discriminate E
  | E : Ok _ = Ok ?b |- _ => is_var b; inversion E; subst b; clear E
  | E : (let (_, _) := ?p in _) = Ok _ |- _ => destruct p
  | E : bind ?m _ = Ok _ |- _ =>
      let E' := fresh "E" in
      destruct m eqn:E'; cbn [bind] in E;
      try discriminate E; try discriminate E'
  end.

Ltac bind_cases :=
  repeat match goal with
  | |- context [bind ?m _] =>
      let E := fresh "E" in
      destruct m eqn:E; cbn [bind]; try discriminate; bind_inv
  end.

(** ** [cubic_curve] *)

Section CubicCurve.
Context `{Collaborators}.
Import Py PyFacts.

Lemma getitem_nth_nat (l : list R) (j : nat) :
  (j < length l)%nat -> getitem l (Z.of_nat j) = Ok (nth j l 0).
Proof. intros Hj. apply getitem_nth. now apply index_nat. Qed.

Lemma getitem_nth_neg (l : list R) (k : nat) :
  (1 <= k <= length l)%nat -> getitem l (- Z.of_nat k) = Ok (nth (length l - k) l 0).
Proof. intros Hk. apply getitem_nth. now apply index_neg. Qed.

Lemma hd_nth0 (l : list R) : hd 0 l = nth 0 l 0.
Proof. now destruct l. Qed.

Lemma last_nth (l : list R) : last l 0 = nth (length l - 1) l 0.
Proof.
  destruct l as [|a l] using rev_ind; [reflexivity|].
  rewrite last_last, length_app. simpl.
  replace (length l + 1 - 1)%nat with (length l) by lia.
  now rewrite nth_middle.
Qed.

(** The baseline knot vector, as [cubic_curve] builds it from [t[0]] and
    [t[-1]]. *)
Lemma baseline_knot (ts : list R) :
  ts <> [] ->
  getitem ts 0 = Ok (hd 0 ts) /\ getitem ts (-1) = Ok (last ts 0).
Proof.
  intros Hts. split.
  - destruct ts; [contradiction|reflexivity].
  - destruct ts as [|a l] using rev_ind; [contradiction|].
    now rewrite getitem_last, last_last.
Qed.

Lemma periodic_knot_steps {B : Type} (ts : list R) (t0 tl v0 v1 v2 v3 : R)
    (k : list R -> result B) :
  (knot <- setitem (repeat t0 3 ++ ts ++ repeat tl 3) 0 v0 ;;
   knot <- setitem knot 1 v1 ;;
   knot <- setitem knot (-2) v2 ;;
   knot <- setitem knot (-1) v3 ;;
   k knot)
  = k ([v0; v1; t0] ++ ts ++ [tl; v2; v3]).
Proof.
  assert (E0 : setitem (t0 :: t0 :: t0 :: ts ++ [tl; tl; tl]) 0 v0
               = Ok (v0 :: t0 :: t0 :: ts ++ [tl; tl; tl])) by reflexivity.
  pose proof (setitem_middle [v0] t0 ([t0] ++ ts ++ [tl; tl; tl]) v1) as E1.
  pose proof (setitem_middle_neg ([v0; v1; t0] ++ ts ++ [tl]) tl [tl] v2) as E2.
  pose proof (setitem_middle_neg ([v0; v1; t0] ++ ts ++ [tl; v2]) tl [] v3) as E3.
  repeat rewrite <- app_assoc in E2, E3.
  cbn in E1, E2, E3. cbn [repeat app].
  rewrite E0. cbn [bind]. rewrite E1. cbn [bind]. rewrite E2. cbn [bind].
  rewrite E3. reflexivity.
Qed.

(** C2 (the code falls short of the claim).  In the HERMITE regime
    [cubic_curve] never returns a curve, whatever the points, parameters and
    tangents: once the basis is built and evaluated at the sample, the
    derivative rows are asked from [getBasis], a name that is not defined, and
    the call raises NameError before any row is appended and before the
    system is solved. *)
Theorem cubic_curve_hermite_never_returns x t tangents :
  (forall c, cubic_curve x HERMITE t tangents <> Ok c) /\
  (forall ts b N,
     parameter_sample x t = Ok ts ->
     cubic_curve_basis HERMITE ts = Ok b ->
     evaluate b ts 0 = Ok N ->
     cubic_curve x HERMITE t tangents = Raise (NameError "getBasis")).
Proof.
  split.
  - intros c. unfold cubic_curve. bind_cases.
  - intros ts b N Ht Hb HN. unfold cubic_curve.
    rewrite Ht. cbn [bind]. rewrite Hb. cbn [bind]. rewrite HN. reflexivity.
Qed.

(** C7 (amended).  For every parameter sample of at least three values, the
    PERIODIC regime replaces the first two knots of the padded sequence by
    [t[-3]-t[-1]] and [t[-2]-t[-1]] and the last two by [t[-1]+t[1]] and
    [t[-1]+t[2]], builds the order-4 basis with periodic continuity 1 on
    them, and solves the system of the sample rows alone: the matrix handed
    to the solver is the basis evaluated at the sample and the right-hand
    side is the point matrix, without any added row. *)
Theorem cubic_curve_periodic x t ts tangents :
  parameter_sample x t = Ok ts ->
  (3 <= length ts)%nat ->
  cubic_curve_basis PERIODIC ts = Ok (Basis 4 (periodic_knot ts) (Some 1%Z)) /\
  cubic_curve x PERIODIC t tangents =
    (let b := Basis 4 (periodic_knot ts) (Some 1%Z) in
     N <- evaluate b ts 0 ;;
     cp <- np_linalg_solve N (np_matrix x) ;;
     Ok (Curve b cp false)).
Proof.
  intros Ht Hlen.
  assert (Hb : cubic_curve_basis PERIODIC ts
               = Ok (Basis 4 (periodic_knot ts) (Some 1%Z))).
  { unfold cubic_curve_basis, cubic_curve_knot.
    assert (Hne : ts <> []) by (destruct ts; simpl in *; [lia|discriminate]).
    destruct (baseline_knot ts Hne) as [H0 Hl]. rewrite H0, Hl. cbn [bind].
    pose proof (getitem_nth_neg ts 3 ltac:(lia)) as G3.
    pose proof (getitem_nth_neg ts 2 ltac:(lia)) as G2.
    pose proof (getitem_nth_nat ts 1 ltac:(lia)) as P1.
    pose proof (getitem_nth_nat ts 2 ltac:(lia)) as P2.
    change (- Z.of_nat 3)%Z with (-3)%Z in G3.
    change (- Z.of_nat 2)%Z with (-2)%Z in G2.
    change (Z.of_nat 1) with 1%Z in P1. change (Z.of_nat 2) with 2%Z in P2.
    rewrite G3, G2, P1, P2. cbn [bind].
    rewrite periodic_knot_steps.
    rewrite BSplineBasis_enough
      by (rewrite !length_app; cbn [length]; lia).
    unfold periodic_knot.
    rewrite <- hd_nth0, <- last_nth. reflexivity. }
  split; [exact Hb|].
  unfold cubic_curve. rewrite Ht. cbn [bind]. rewrite Hb. reflexivity.
Qed.

(** *** The FREE knot vector *)

Lemma drop_positions_miss {A : Type} (ps : list nat) (l rest : list A) (i : nat) :
  (forall p, In p ps -> (p < i \/ i + length l <= p)%nat) ->
  drop_positions ps i (l ++ rest) = l ++ drop_positions ps (i + length l) rest.
Proof.
  revert i. induction l as [|a l IH]; intros i Hps; simpl.
  - now rewrite Nat.add_0_r.
  - destruct (existsb (Nat.eqb i) ps) eqn:E.
    + apply existsb_exists in E. destruct E as [p [Hin Hp]].
      apply Nat.eqb_eq in Hp. subst p.
      specialize (Hps i Hin). simpl in Hps. lia.
    + rewrite IH.
      * now replace (S i + length l)%nat with (i + S (length l))%nat by lia.
      * intros p Hin. specialize (Hps p Hin). simpl in Hps.
        assert (p <> i).
        { intros ->.
          assert (existsb (Nat.eqb i) ps = true)
            by (apply existsb_exists; exists i; split;
                [assumption|apply Nat.eqb_refl]).
          congruence. }
        lia.
Qed.

Lemma drop_positions_hit {A : Type} (ps : list nat) (a : A) (l : list A) (i : nat) :
  In i ps -> drop_positions ps i (a :: l) = drop_positions ps (S i) l.
Proof.
  intros Hin. simpl.
  assert (E : existsb (Nat.eqb i) ps = true)
    by (apply existsb_exists; exists i; split; [assumption|apply Nat.eqb_refl]).
  now rewrite E.
Qed.

Lemma drop_positions_miss_all {A : Type} (ps : list nat) (l : list A) (i : nat) :
  (forall p, In p ps -> (p < i \/ i + length l <= p)%nat) ->
  drop_positions ps i l = l.
Proof.
  intros Hps. rewrite <- (app_nil_r l) at 1.
  rewrite drop_positions_miss by assumption. simpl. apply app_nil_r.
Qed.

(** A sample of at least four values has two leading and two trailing ones. *)
Lemma four_or_more (ts : list R) :
  (4 <= length ts)%nat ->
  exists a b m c d, ts = a :: b :: m ++ [c; d].
Proof.
  intros Hlen.
  destruct ts as [|a [|b rest]]; simpl in Hlen; try lia.
  destruct rest as [|d' rest'] using rev_ind; [simpl in Hlen; lia|].
  clear IHrest'.
  destruct rest' as [|c' rest''] using rev_ind.
  - simpl in Hlen. lia.
  - exists a, b, rest'', c', d'. now rewrite <- app_assoc.
Qed.

(** What the two deletions of the FREE regime leave of the padded sequence. *)
Lemma free_knot_steps (a b c d : R) (m : list R) :
  let ts := a :: b :: m ++ [c; d] in
  (knot <- delitem (repeat (hd 0 ts) 3 ++ ts ++ repeat (last ts 0) 3) (-5) ;;
   delitem knot 4)
  = Ok ([a; a; a; a] ++ m ++ [d; d; d; d]).
Proof.
  intros ts.
  assert (Hl : last ts 0 = d).
  { unfold ts. change (a :: b :: m ++ [c; d]) with ([a; b] ++ m ++ [c; d]).
    rewrite !app_assoc. change [c; d] with ([c] ++ [d]). rewrite app_assoc.
    apply last_last. }
  rewrite Hl. unfold ts. cbn [hd repeat app].
  pose proof (delitem_middle_neg ([a; a; a; a; b] ++ m) c [d; d; d; d]) as E1.
  pose proof (delitem_middle [a; a; a; a] b (m ++ [d; d; d; d])) as E2.
  rewrite <- !app_assoc in E1. cbn in E1, E2.
  rewrite <- app_assoc. cbn [app].
  rewrite E1. cbn [bind]. exact E2.
Qed.

Lemma free_knot_positions (a b c d : R) (m : list R) :
  let ts := a :: b :: m ++ [c; d] in
  without_indices [4; -5]%Z (padded ts) = [a; a; a; a] ++ m ++ [d; d; d; d].
Proof.
  intros ts. unfold without_indices.
  assert (Hl : last ts 0 = d).
  { unfold ts. change (a :: b :: m ++ [c; d]) with ([a; b] ++ m ++ [c; d]).
    rewrite !app_assoc. change [c; d] with ([c] ++ [d]). rewrite app_assoc.
    apply last_last. }
  assert (Hlen : length (padded ts) = (length m + 10)%nat).
  { unfold padded, ts. rewrite !length_app. simpl. rewrite length_app. simpl. lia. }
  rewrite Hlen.
  change 4%Z with (Z.of_nat 4). change (-5)%Z with (- Z.of_nat 5)%Z.
  cbn [flat_map]. rewrite index_nat, index_neg by lia. cbn [app].
  replace (length m + 10 - 5)%nat with (5 + length m)%nat by lia.
  unfold padded. rewrite Hl. unfold ts. cbn [hd repeat app].
  change (a :: a :: a :: a :: b :: (m ++ [c; d]) ++ [d; d; d])
    with ([a; a; a; a] ++ b :: (m ++ [c; d]) ++ [d; d; d]).
  rewrite drop_positions_miss by (simpl; intros p [<-|[<-|[]]]; lia).
  rewrite drop_positions_hit by (simpl; auto).
  rewrite <- app_assoc.
  rewrite drop_positions_miss by (simpl; intros p [<-|[<-|[]]]; lia).
  cbn [app]. rewrite drop_positions_hit by (simpl; right; left; lia).
  rewrite drop_positions_miss_all by (simpl; intros p [<-|[<-|[]]]; lia).
  reflexivity.
Qed.

Lemma padded_length (ts : list R) : length (padded ts) = (length ts + 6)%nat.
Proof. unfold padded. rewrite !length_app, !repeat_length. lia. Qed.

(** The knot vector of the FREE regime on at least four values. *)
Lemma free_knot (ts : list R) :
  (4 <= length ts)%nat ->
  cubic_curve_knot FREE ts = Ok (without_indices [4; -5]%Z (padded ts)) /\
  length (without_indices [4; -5]%Z (padded ts)) = (length ts + 4)%nat.
Proof.
  intros H4.
  destruct (four_or_more ts H4) as [a [b [m [c [d E]]]]].
  pose proof (free_knot_positions a b c d m) as Hpos.
  pose proof (free_knot_steps a b c d m) as Hsteps.
  cbv zeta in Hpos, Hsteps. rewrite <- E in Hpos, Hsteps.
  split.
  - unfold cubic_curve_knot.
    assert (Hne : ts <> []) by (rewrite E; discriminate).
    destruct (baseline_knot ts Hne) as [H0 Hl]. rewrite H0, Hl. cbn [bind].
    rewrite Hsteps, Hpos. reflexivity.
  - rewrite Hpos, E. simpl. rewrite !length_app. simpl. lia.
Qed.

(** C6 (amended).  For every parameter sample of [n >= 4] values, the FREE
    regime pads the sample with its first and its last value three times
    each, which gives [n + 6] candidate knots, and the knot vector it hands
    to the basis constructor is that padded sequence without its entries at
    index 4 and index -5, [n + 4] knots in all; the order-4 basis is built on
    them and the system of the sample rows alone is solved. *)
Theorem cubic_curve_free x t ts tangents :
  parameter_sample x t = Ok ts ->
  (4 <= length ts)%nat ->
  length (padded ts) = (length ts + 6)%nat /\
  length (without_indices [4; -5]%Z (padded ts)) = (length ts + 4)%nat /\
  cubic_curve_knot FREE ts = Ok (without_indices [4; -5]%Z (padded ts)) /\
  cubic_curve_basis FREE ts
    = Ok (Basis 4 (without_indices [4; -5]%Z (padded ts)) None) /\
  cubic_curve x FREE t tangents =
    (let b := Basis 4 (without_indices [4; -5]%Z (padded ts)) None in
     N <- evaluate b ts 0 ;;
     cp <- np_linalg_solve N (np_matrix x) ;;
     Ok (Curve b cp false)).
Proof.
  intros Ht Hlen. split; [apply padded_length|].
  destruct (free_knot ts Hlen) as [Hknot Hk].
  assert (Hb : cubic_curve_basis FREE ts
               = Ok (Basis 4 (without_indices [4; -5]%Z (padded ts)) None)).
  { unfold cubic_curve_basis. rewrite Hknot. cbn [bind].
    apply BSplineBasis_enough. lia. }
  repeat split; [exact Hk|exact Hknot|exact Hb|].
  unfold cubic_curve. rewrite Ht. cbn [bind]. rewrite Hb. reflexivity.
Qed.

(** *** Tangent rows *)

Lemma np_resize_length (a : matrix) (r c : nat) : length (np_resize a r c) = r.
Proof. unfold np_resize. now rewrite length_map, length_seq. Qed.

Lemma broadcast_to_mismatch (v : matrix) (k d : nat) :
  length v <> k -> length v <> 1%nat ->
  broadcast_to v k d = Raise (ValueError "could not broadcast input array").
Proof.
  intros Hk H1. unfold broadcast_to.
  apply Nat.eqb_neq in Hk, H1. now rewrite Hk, H1.
Qed.

(** The assignment [x[n:,:] = tangents] on the point matrix extended by [k]
    rows. *)
Lemma tangent_assignment_mismatch (d : dtype) (rows tangents : matrix) (k : nat) :
  length tangents <> k -> length tangents <> 1%nat ->
  setitem_rows d (np_resize rows (length rows + k) (ncols rows))
               (Z.of_nat (length rows)) tangents
  = Raise (ValueError "could not broadcast input array").
Proof.
  intros Hk H1. unfold setitem_rows.
  rewrite np_resize_length, bound_nat.
  replace (length rows + k - Nat.min (length rows) (length rows + k))%nat
    with k by lia.
  now rewrite broadcast_to_mismatch.
Qed.

(** C4 (amended).  [cubic_curve] does not validate the tangent matrix before
    it assembles the system: in the TANGENT and TANGENTNATURAL regimes the
    tangents are written by the broadcasting assignment [x[n:,:] = tangents]
    after the basis has been evaluated.  When the tangent matrix has neither
    the 2 (respectively 1) rows of the regime nor a single row, no curve is
    returned, and once the basis is built and evaluated the failure is the
    ValueError of that assignment. *)
Theorem cubic_curve_tangent_rows d rows boundary t tangents required :
  boundary = TANGENT \/ boundary = TANGENTNATURAL ->
  required_tangent_rows boundary (length rows) = Some required ->
  length tangents <> required ->
  length tangents <> 1%nat ->
  (forall c, cubic_curve (NdArray d rows) boundary t tangents <> Ok c) /\
  (forall ts b N dn,
     parameter_sample (NdArray d rows) t = Ok ts ->
     cubic_curve_basis boundary ts = Ok b ->
     evaluate b ts 0 = Ok N ->
     evaluate b (if Boundary_eqb boundary TANGENT
                 then [hd 0 ts; last ts 0] else [hd 0 ts]) 1 = Ok dn ->
     cubic_curve (NdArray d rows) boundary t tangents
     = Raise (ValueError "could not broadcast input array")).
Proof.
  intros Hb Hreq Hk H1.
  pose proof (tangent_assignment_mismatch d rows tangents required Hk H1) as E.
  destruct Hb as [-> | ->]; simpl in Hreq; injection Hreq as <-.
  - split.
    + intros c. unfold cubic_curve. cbn [shape rows_of dtype_of fst snd bind].
      change (len (NdArray d rows)) with (length rows).
      rewrite E. bind_cases.
    + intros ts b N dn Ht Hbasis HN Hdn.
      unfold cubic_curve. rewrite Ht. cbn [bind]. rewrite Hbasis. cbn [bind].
      rewrite HN. cbn [bind].
      assert (Hne : ts <> []).
      { intros ->. unfold cubic_curve_basis, cubic_curve_knot in Hbasis.
        discriminate. }
      destruct (baseline_knot ts Hne) as [H0 Hl]. rewrite H0, Hl. cbn [bind].
      cbn [Boundary_eqb] in Hdn. rewrite Hdn. cbn [bind shape rows_of dtype_of fst snd].
      change (len (NdArray d rows)) with (length rows).
      rewrite E. reflexivity.
  - split.
    + intros c. unfold cubic_curve. cbn [shape rows_of dtype_of fst snd bind].
      change (len (NdArray d rows)) with (length rows).
      rewrite E. bind_cases.
    + intros ts b N dn Ht Hbasis HN Hdn.
      unfold cubic_curve. rewrite Ht. cbn [bind]. rewrite Hbasis. cbn [bind].
      rewrite HN. cbn [bind].
      assert (Hne : ts <> []).
      { intros ->. unfold cubic_curve_basis, cubic_curve_knot in Hbasis.
        discriminate. }
      destruct (baseline_knot ts Hne) as [H0 Hl]. rewrite H0. cbn [bind].
      cbn [Boundary_eqb] in Hdn. rewrite Hdn. cbn [bind shape rows_of dtype_of fst snd].
      change (len (NdArray d rows)) with (length rows).
      rewrite E. reflexivity.
Qed.

(** *** Plain lists as point matrices *)

(** C10 (amended).  For a point matrix given as a plain Python list,
    [cubic_curve] returns no curve whenever [t] is omitted or the regime is
    TANGENT, TANGENTNATURAL, HERMITE or NATURAL.  With [t] omitted the
    failure is the TypeError of the slicing [x[:-1,:]]; with [t] supplied and
    the regime TANGENT, TANGENTNATURAL or NATURAL, once the basis is built
    and evaluated, it is the AttributeError of reading [x.shape].
    [interpolate] and [least_square_fit] wrap their point matrix and treat a
    list as they treat an array. *)
Theorem cubic_curve_list_input rows boundary t tangents :
  t = None \/ In boundary [TANGENT; TANGENTNATURAL; HERMITE; NATURAL] ->
  (forall c, cubic_curve (PyList rows) boundary t tangents <> Ok c) /\
  (t = None -> cubic_curve (PyList rows) boundary t tangents = Raise TypeError) /\
  (forall ts b,
     t = Some ts ->
     In boundary [TANGENT; TANGENTNATURAL; NATURAL] ->
     cubic_curve_basis boundary ts = Ok b ->
     (forall ts' d,
        In (ts', d) [(ts, 0%nat); ([hd 0 ts; last ts 0], 1%nat);
                     ([hd 0 ts], 1%nat); ([hd 0 ts; last ts 0], 2%nat)] ->
        returns (evaluate b ts' d)) ->
     cubic_curve (PyList rows) boundary t tangents = Raise AttributeError) /\
  (forall d b t', interpolate (PyList rows) b t' = interpolate (NdArray d rows) b t') /\
  (forall d b t', least_square_fit (PyList rows) b t'
                  = least_square_fit (NdArray d rows) b t').
Proof.
  intros Hcase. repeat split.
  - intros c. destruct t as [ts|].
    + destruct Hcase as [Hcase|Hcase]; [discriminate|].
      simpl in Hcase.
      destruct Hcase as [<-|[<-|[<-|[<-|[]]]]];
        unfold cubic_curve; cbn [shape]; bind_cases.
    + unfold cubic_curve. cbn. discriminate.
  - intros ->. reflexivity.
  - intros ts b -> Hb Hbasis Hev.
    assert (Hne : ts <> []).
    { intros ->. unfold cubic_curve_basis, cubic_curve_knot in Hbasis.
      discriminate. }
    destruct (baseline_knot ts Hne) as [H0 Hl].
    destruct (Hev ts 0%nat) as [N HN]; [simpl; auto|].
    destruct (Hev [hd 0 ts; last ts 0] 1%nat) as [dn2 Hdn2]; [simpl; auto|].
    destruct (Hev [hd 0 ts] 1%nat) as [dn1 Hdn1]; [simpl; auto|].
    destruct (Hev [hd 0 ts; last ts 0] 2%nat) as [ddn Hddn]; [simpl; auto 6|].
    simpl in Hb.
    destruct Hb as [<-|[<-|[<-|[]]]];
      unfold cubic_curve; cbn [parameter_sample bind];
      rewrite Hbasis; cbn [bind]; rewrite HN; cbn [bind];
      rewrite ?H0, ?Hl; cbn [bind];
      rewrite ?Hdn2, ?Hdn1, ?Hddn; reflexivity.
Qed.
End CubicCurve.

(** ** [least_square_fit] *)

Section LeastSquares.
Context `{Collaborators}.

Lemma row_sumsq_nonneg (row : list R) :
  0 <= fold_right (fun c a => c * c + a) 0 row.
Proof. induction row as [|c row IH]; simpl; [lra|nra]. Qed.

Lemma sumsq_nonneg (m : matrix) : 0 <= sumsq m.
Proof.
  induction m as [|row m IH]; simpl; [lra|].
  pose proof (row_sumsq_nonneg row). fold (sumsq m). lra.
Qed.

Lemma row_sumsq_vsub_self (row : list R) :
  fold_right (fun c a => c * c + a) 0 (vsub row row) = 0.
Proof.
  unfold vsub. induction row as [|c row IH]; simpl; [reflexivity|].
  rewrite IH. lra.
Qed.

Lemma sumsq_msub_self (m : matrix) : sumsq (msub m m) = 0.
Proof.
  unfold msub. induction m as [|row m IH]; simpl; [reflexivity|].
  fold (sumsq (map (fun p => vsub (fst p) (snd p)) (combine m m))).
  rewrite IH, row_sumsq_vsub_self. lra.
Qed.

(** C1 (amended).  [least_square_fit] checks no row count: whenever the basis
    evaluation and the least-squares solver return, it returns the curve on
    the given basis with the solver's control points, whatever the number of
    sample rows.  When the solver's answer is a least-squares solution and
    the system [N P = x] has an exact solution (as it has when the row count
    equals the basis size and [N] is invertible), the residual of the
    returned control points is zero. *)
Theorem least_square_fit_solves x b t N cp :
  evaluate b t 0 = Ok N ->
  np_linalg_lstsq N (np_matrix x) = Ok cp ->
  least_square_fit x b t = Ok (Curve b cp false) /\
  (least_squares_solution N (np_matrix x) cp ->
   (exists P, has_shape P (ncols N) (ncols (np_matrix x))
              /\ matmul N P = np_matrix x) ->
   residual N cp (np_matrix x) = 0).
Proof.
  intros HN Hcp. split.
  - unfold least_square_fit. rewrite HN. cbn [bind]. rewrite Hcp. reflexivity.
  - intros [_ Hmin] [P [HP Hexact]].
    destruct (Hmin P HP) as [Hle _].
    unfold residual in Hle at 2. rewrite Hexact, sumsq_msub_self in Hle.
    pose proof (sumsq_nonneg (msub (matmul N cp) (np_matrix x))).
    unfold residual in *. lra.
Qed.

End LeastSquares.

(** ** The conic constructors *)

(** Equality of lists of reals, entry by entry. *)
Ltac entrywise tac := repeat (f_equal; try tac).

Section Conics.
Context `{Collaborators}.

Lemma sqrt2_pos : 0 < sqrt 2.
Proof. apply sqrt_lt_R0. lra. Qed.

Lemma quarter_turns_code (ks : list R) :
  map (fun k => k / 4 * 2 * PI) ks = quarter_turns ks.
Proof. unfold quarter_turns. apply map_ext. intros k. lra. Qed.

Lemma circle_quadratic r center normal tag :
  0 < r -> quadratic_tag tag ->
  circle r center normal tag
  = Ok (flip_and_move_plane_geometry
          (imul (Curve quadratic_basis
                       (homogeneous_rows square_polygon quadratic_weights) true) r)
          center normal).
Proof.
  intros Hr Htag. unfold circle.
  destruct (Rle_dec r 0) as [Hle|_]; [lra|].
  assert (E : ((tag =? "p2C0")%string || (tag =? "C0p2")%string) = true).
  { destruct Htag as [-> | ->]; reflexivity. }
  rewrite E.
  rewrite BSplineBasis_enough by (rewrite length_map; cbn [length]; lia).
  cbn [bind]. rewrite quarter_turns_code.
  do 4 f_equal.
  unfold homogeneous_rows, square_polygon, quadratic_weights, homogeneous.
  cbn [combine map fst snd app].
  entrywise lra.
Qed.

Lemma quartic_constants :
  1 / 2 / sqrt 2 = quartic_a /\ 1 / 6 * (4 * sqrt 2 - 1) = quartic_b /\
  0 < quartic_w.
Proof.
  pose proof sqrt2_pos. unfold quartic_a, quartic_b, quartic_w.
  repeat split; try (field; lra). lra.
Qed.

Lemma circle_quartic_code r center normal tag :
  0 < r -> quartic_tag tag ->
  circle r center normal tag
  = Ok (flip_and_move_plane_geometry
          (imul (Curve quartic_basis
                       (quartic_controlpoints quartic_w quartic_a quartic_b) true) r)
          center normal).
Proof.
  intros Hr Htag. unfold circle.
  destruct (Rle_dec r 0) as [Hle|_]; [lra|].
  assert (E : ((tag =? "p2C0")%string || (tag =? "C0p2")%string) = false).
  { destruct Htag as [-> | ->]; reflexivity. }
  assert (E' : ((tag =? "p4C1")%string || (tag =? "C1p4")%string) = true).
  { destruct Htag as [-> | ->]; reflexivity. }
  rewrite E, E'.
  rewrite BSplineBasis_enough by (rewrite length_map; cbn [length]; lia).
  cbn [bind]. rewrite quarter_turns_code.
  destruct quartic_constants as [-> [-> _]].
  reflexivity.
Qed.

Lemma quartic_homogeneous :
  quartic_controlpoints quartic_w quartic_a quartic_b
  = homogeneous_rows quartic_polygon quartic_weights.
Proof.
  destruct quartic_constants as [_ [_ Hw]].
  unfold homogeneous_rows, quartic_polygon, quartic_weights, homogeneous,
    quartic_controlpoints.
  cbn [combine map fst snd app].
  entrywise ltac:(first [lra | field; lra]).
Qed.

Lemma circle_unknown_tag r center normal tag :
  0 < r -> ~ quadratic_tag tag -> ~ quartic_tag tag ->
  circle r center normal tag = Raise (ValueError ("Unkown type: " ++ tag)).
Proof.
  intros Hr H2 H4. unfold circle.
  destruct (Rle_dec r 0) as [Hle|_]; [lra|].
  unfold quadratic_tag, quartic_tag in *.
  destruct (String.eqb_spec tag "p2C0"); [tauto|].
  destruct (String.eqb_spec tag "C0p2"); [tauto|].
  destruct (String.eqb_spec tag "p4C1"); [tauto|].
  destruct (String.eqb_spec tag "C1p4"); [tauto|].
  reflexivity.
Qed.


(** C8.  For every radius [r > 0]: with a quadratic tag, [circle] builds the
    rational curve of 8 control points whose weights alternate between 1 and
    [1 / sqrt 2], on the order-3 basis of periodic continuity 0 whose knots
    are the doubled quarter turns; with a quartic tag, the rational curve of
    12 control points over [w = 2 sqrt 2 / 3], [a = 1 / (2 sqrt 2)] and
    [b = (4 sqrt 2 - 1) / 6], on the order-5 basis of periodic continuity 1;
    in both cases it returns that curve scaled by [r] and placed, and a
    scaling and a placement that keep weights return a curve with these
    weights on this basis.  Every other tag raises the ValueError of the
    unknown type. *)
Theorem circle_parametrizations r center normal tag :
  0 < r ->
  (quadratic_tag tag ->
   exists c,
     circle r center normal tag
       = Ok (flip_and_move_plane_geometry (imul c r) center normal) /\
     rational c = true /\ curve_basis c = quadratic_basis /\
     length (controlpoints c) = 8%nat /\
     map weight (controlpoints c)
       = [1; 1 / sqrt 2; 1; 1 / sqrt 2; 1; 1 / sqrt 2; 1; 1 / sqrt 2]) /\
  (quartic_tag tag ->
   exists c,
     circle r center normal tag
       = Ok (flip_and_move_plane_geometry (imul c r) center normal) /\
     rational c = true /\ curve_basis c = quartic_basis /\
     length (controlpoints c) = 12%nat /\
     controlpoints c
       = quartic_controlpoints (2 * sqrt 2 / 3) (1 / (2 * sqrt 2))
                               ((4 * sqrt 2 - 1) / 6)) /\
  (~ quadratic_tag tag -> ~ quartic_tag tag ->
   circle r center normal tag = Raise (ValueError ("Unkown type: " ++ tag))) /\
  (keeps_weights (fun c => imul c r) ->
   keeps_weights (fun c => flip_and_move_plane_geometry c center normal) ->
   (quadratic_tag tag ->
    exists c,
      circle r center normal tag = Ok c /\
      rational c = true /\ curve_basis c = quadratic_basis /\
      map weight (controlpoints c)
        = [1; 1 / sqrt 2; 1; 1 / sqrt 2; 1; 1 / sqrt 2; 1; 1 / sqrt 2]) /\
   (quartic_tag tag ->
    exists c,
      circle r center normal tag = Ok c /\
      rational c = true /\ curve_basis c = quartic_basis /\
      map weight (controlpoints c)
        = [1; 1; 2 * sqrt 2 / 3; 1; 1; 2 * sqrt 2 / 3;
           1; 1; 2 * sqrt 2 / 3; 1; 1; 2 * sqrt 2 / 3])).
Proof.
  intros Hr.
  assert (W2 : map weight (homogeneous_rows square_polygon quadratic_weights)
               = [1; 1 / sqrt 2; 1; 1 / sqrt 2; 1; 1 / sqrt 2; 1; 1 / sqrt 2])
    by reflexivity.
  assert (W4 : map weight (quartic_controlpoints quartic_w quartic_a quartic_b)
               = [1; 1; 2 * sqrt 2 / 3; 1; 1; 2 * sqrt 2 / 3;
                  1; 1; 2 * sqrt 2 / 3; 1; 1; 2 * sqrt 2 / 3])
    by reflexivity.
  split; [|split; [|split]].
  - intros Htag. eexists. split; [apply circle_quadratic; assumption|].
    repeat split.
  - intros Htag. eexists. split; [apply circle_quartic_code; assumption|].
    repeat split.
  - intros H2 H4. now apply circle_unknown_tag.
  - intros Hscale Hplace. split; intros Htag.
    + eexists. split; [apply circle_quadratic; assumption|].
      match goal with |- context [imul ?c r] =>
        destruct (Hscale c eq_refl) as [Hb [Hrat Hw]];
        destruct (Hplace (imul c r) Hrat) as [Hb' [Hrat' Hw']]
      end.
      cbv beta in *. rewrite Hb', Hb, Hw', Hw. repeat split; assumption.
    + eexists. split; [apply circle_quartic_code; assumption|].
      match goal with |- context [imul ?c r] =>
        destruct (Hscale c eq_refl) as [Hb [Hrat Hw]];
        destruct (Hplace (imul c r) Hrat) as [Hb' [Hrat' Hw']]
      end.
      cbv beta in *. rewrite Hb', Hb, Hw', Hw. repeat split; assumption.
Qed.


(** *** Arcs *)

Lemma segment_weight (dt : R) (i : Z) :
  1 - IZR (i mod 2) * (1 - cos dt) = arc_weight dt i.
Proof.
  unfold arc_weight. rewrite Zmod_even.
  destruct (Z.even i); simpl; lra.
Qed.

(** The loop over [range(n)]: the angle reached at step [i] is [i * dt]. *)
Lemma segment_loop (r dt : R) (k s : nat) (acc : matrix) :
  fold_left (segment_step r dt) (map Z.of_nat (seq s k))
            (acc, IZR (Z.of_nat s) * dt)
  = (acc ++ map (segment_point r dt) (map Z.of_nat (seq s k)),
     IZR (Z.of_nat (s + k)) * dt).
Proof.
  revert s acc. induction k as [|k IH]; intros s acc.
  - simpl. now rewrite app_nil_r, Nat.add_0_r.
  - cbn [seq map fold_left]. unfold segment_step at 2.
    rewrite segment_weight.
    replace (IZR (Z.of_nat s) * dt + dt) with (IZR (Z.of_nat (S s)) * dt)
      by (rewrite Nat2Z.inj_succ, succ_IZR; ring).
    rewrite IH. fold (segment_point r dt (Z.of_nat s)).
    rewrite <- app_assoc. cbn [app].
    now replace (S s + k)%nat with (s + S k)%nat by lia.
Qed.

Lemma segment_controlpoints (r dt : R) (n : Z) :
  fst (fold_left (segment_step r dt) (Py.range n) ([], 0))
  = map (segment_point r dt) (Py.range n).
Proof.
  unfold Py.range.
  replace 0 with (IZR (Z.of_nat 0) * dt) at 1 by (simpl; ring).
  now rewrite segment_loop.
Qed.

Lemma arc_knot_last (spans : Z) :
  last ([0%Z] ++ flat_map (fun i => [i; i]) (Py.range (spans + 1)) ++ [spans]) 0%Z
  = spans.
Proof. rewrite app_assoc. apply last_last. Qed.

Lemma arc_knot_length (spans : Z) (theta : R) :
  length (arc_knot spans theta) = (2 * Z.to_nat (spans + 1) + 2)%nat.
Proof.
  unfold arc_knot. rewrite length_map, !length_app. cbn [length].
  assert (E : forall l : list Z,
             length (flat_map (fun i => [i; i]) l) = (2 * length l)%nat).
  { induction l as [|a l IH]; [reflexivity|]. cbn [flat_map app length]. lia. }
  rewrite E. unfold Py.range. rewrite length_map, length_seq. lia.
Qed.

Lemma two_thirds_turn_pos : 0 < 2 * PI / 3.
Proof. pose proof PI_RGT_0. lra. Qed.

(** The number of spans of a positive angle below the full turn: the least
    [k] with [theta / k <= 2 pi / 3]. *)
Lemma spans_positive (theta : R) :
  0 < theta < 2 * PI ->
  let k := Zceil (theta / (2 * PI / 3)) in
  (1 <= k <= 3)%Z /\
  IZR k - 1 < theta / (2 * PI / 3) <= IZR k /\
  0 < theta / IZR k / 2 <= PI / 3.
Proof.
  intros [Hpos Hlt] k.
  pose proof two_thirds_turn_pos as Hd.
  pose proof (Zceil_bound (theta / (2 * PI / 3))) as Hb. fold k in Hb.
  assert (Hq : 0 < theta / (2 * PI / 3) < 3).
  { split.
    - apply Rdiv_lt_0_compat; assumption.
    - apply Rmult_lt_reg_r with (2 * PI / 3); [assumption|].
      unfold Rdiv at 1. rewrite Rmult_assoc, Rinv_l by lra. lra. }
  assert (Hk : (1 <= k <= 3)%Z).
  { split.
    - apply Z.lt_pred_le. simpl. apply lt_IZR. lra.
    - apply Z.lt_succ_r. simpl. apply lt_IZR. lra. }
  assert (Hkpos : 0 < IZR k) by (apply IZR_lt; lia).
  repeat split; try lia; try lra.
  - apply Rdiv_lt_0_compat; [|lra]. now apply Rdiv_lt_0_compat.
  - assert (Hth : theta <= IZR k * (2 * PI / 3)).
    { apply Rmult_le_reg_r with (/ (2 * PI / 3)).
      - now apply Rinv_0_lt_compat.
      - rewrite Rmult_assoc, Rinv_r by lra. unfold Rdiv in Hb. lra. }
    apply Rmult_le_reg_r with (IZR k * 2); [lra|].
    replace (theta / IZR k / 2 * (IZR k * 2)) with theta by (field; lra).
    lra.
Qed.

(** What [circle_segment] does once its guards are passed and the span count
    is not zero: the control points are computed and the basis constructor
    is called on the knot vector. *)
Lemma circle_segment_construction theta r center normal :
  0 < r -> Rabs theta <= 2 * PI -> theta <> 2 * PI ->
  let k := Zceil (theta / (2 * PI / 3)) in
  k <> 0%Z ->
  circle_segment theta r center normal
  = (b <- BSplineBasis 3 (arc_knot k theta) None ;;
     Ok (flip_and_move_plane_geometry
           (Curve b
                  (map (segment_point r (theta / IZR k / 2)) (Py.range (2 * k + 1)))
                  true)
           center normal)).
Proof.
  intros Hr Habs Hne k Hk. unfold circle_segment.
  destruct (Rlt_dec (2 * PI) (Rabs theta)) as [Hgt|_]; [lra|].
  destruct (Rle_dec r 0) as [Hle|_]; [lra|].
  destruct (Req_dec_T theta (2 * PI)) as [Heq|_]; [contradiction|].
  fold k. rewrite arc_knot_last.
  apply Z.eqb_neq in Hk. rewrite Hk.
  pose proof (segment_controlpoints r (theta / IZR k / 2) ((k - 1) * 2 + 3)) as E.
  destruct (fold_left (segment_step r (theta / IZR k / 2))
                      (Py.range ((k - 1) * 2 + 3)) ([], 0)) as [cp t'].
  cbn [fst] in E. rewrite E.
  replace ((k - 1) * 2 + 3)%Z with (2 * k + 1)%Z by lia.
  reflexivity.
Qed.

Lemma circle_segment_positive theta r center normal :
  0 < r -> 0 < theta < 2 * PI ->
  let k := Zceil (theta / (2 * PI / 3)) in
  circle_segment theta r center normal
  = Ok (flip_and_move_plane_geometry
          (Curve (Basis 3 (arc_knot k theta) None)
                 (map (segment_point r (theta / IZR k / 2)) (Py.range (2 * k + 1)))
                 true)
          center normal).
Proof.
  intros Hr Hth k.
  destruct (spans_positive theta Hth) as [Hk _]. fold k in Hk.
  rewrite circle_segment_construction; try lra; try (fold k; lia).
  - fold k. rewrite BSplineBasis_enough; [reflexivity|].
    rewrite arc_knot_length. lia.
  - rewrite Rabs_pos_eq; lra.
Qed.

(** The span count of an angle in [(-2 pi / 3, 0]]. *)
Lemma spans_zero (theta : R) :
  - (2 * PI / 3) < theta <= 0 -> Zceil (theta / (2 * PI / 3)) = 0%Z.
Proof.
  intros [Hlo Hhi]. pose proof two_thirds_turn_pos as Hd.
  apply Zceil_eq. simpl. split.
  - apply Rmult_lt_reg_r with (2 * PI / 3); [assumption|].
    unfold Rdiv at 2. rewrite Rmult_assoc, Rinv_l by lra. lra.
  - apply Rmult_le_reg_r with (2 * PI / 3); [assumption|].
    unfold Rdiv at 1. rewrite Rmult_assoc, Rinv_l by lra. lra.
Qed.

(** With a span count of zero the angle step divides by zero. *)
Lemma circle_segment_zero_spans theta r center normal :
  0 < r -> Rabs theta <= 2 * PI -> theta <> 2 * PI ->
  Zceil (theta / (2 * PI / 3)) = 0%Z ->
  circle_segment theta r center normal = Raise ZeroDivisionError.
Proof.
  intros Hr Habs Hne Hk. unfold circle_segment.
  destruct (Rlt_dec (2 * PI) (Rabs theta)) as [Hgt|_]; [lra|].
  destruct (Rle_dec r 0) as [Hle|_]; [lra|].
  destruct (Req_dec_T theta (2 * PI)) as [Heq|_]; [contradiction|].
  rewrite Hk. reflexivity.
Qed.

(** C5 (the code falls short of the claim).  For every radius [r > 0] and
    every angle [theta] with [-2 pi / 3 < theta <= 0], an angle the guard
    [|theta| <= 2 pi] lets through, the span count [ceil(theta / (2 pi / 3))]
    is 0 and [circle_segment] raises ZeroDivisionError on the angle step
    instead of building the arc. *)
Theorem circle_segment_nonpositive_angle theta r center normal :
  0 < r ->
  - (2 * PI / 3) < theta <= 0 ->
  Rabs theta <= 2 * PI /\ theta <> 2 * PI /\
  Zceil (theta / (2 * PI / 3)) = 0%Z /\
  circle_segment theta r center normal = Raise ZeroDivisionError.
Proof.
  intros Hr Hth. pose proof PI_RGT_0 as Hpi.
  assert (Habs : Rabs theta <= 2 * PI).
  { rewrite Rabs_left1 by tauto. lra. }
  assert (Hne : theta <> 2 * PI) by lra.
  pose proof (spans_zero theta Hth) as Hk.
  repeat split; try assumption.
  now apply circle_segment_zero_spans.
Qed.

(** An angle of [-2 pi / 3] or below gets a negative span count: no control
    point is generated, the knot vector is [[0, theta]], and the basis
    constructor rejects it. *)
Lemma circle_segment_clockwise theta r center normal :
  0 < r ->
  - (2 * PI) <= theta <= - (2 * PI / 3) ->
  let k := Zceil (theta / (2 * PI / 3)) in
  (k < 0)%Z /\
  length (arc_knot k theta) = 2%nat /\
  circle_segment theta r center normal
  = Raise (ValueError "knot vector has too few elements").
Proof.
  intros Hr [Hlo Hhi] k.
  pose proof two_thirds_turn_pos as Hd. pose proof PI_RGT_0 as Hpi.
  assert (Hq : theta / (2 * PI / 3) <= -1).
  { apply Rmult_le_reg_r with (2 * PI / 3); [assumption|].
    unfold Rdiv at 1. rewrite Rmult_assoc, Rinv_l by lra. lra. }
  assert (Hk : (k < 0)%Z).
  { pose proof (Zceil_bound (theta / (2 * PI / 3))) as Hb. fold k in Hb.
    apply lt_IZR. lra. }
  assert (Hlen : length (arc_knot k theta) = 2%nat).
  { rewrite arc_knot_length. lia. }
  split; [exact Hk|]. split; [exact Hlen|].
  rewrite circle_segment_construction; try lra; try (fold k; lia).
  - fold k. rewrite BSplineBasis_too_few; [reflexivity|]. rewrite Hlen. lia.
  - rewrite Rabs_left1 by lra. lra.
Qed.

(** *** Homogeneous form *)

Lemma arc_weight_pos (dt : R) (i : Z) :
  0 < dt <= PI / 3 -> 0 < arc_weight dt i.
Proof.
  intros Hdt. unfold arc_weight. destruct (Z.even i); [lra|].
  pose proof PI_RGT_0. apply cos_gt_0; lra.
Qed.

Lemma segment_point_homogeneous (r dt : R) (i : Z) :
  0 < dt <= PI / 3 ->
  segment_point r dt i = homogeneous (arc_point r dt i) (arc_weight dt i).
Proof.
  intros Hdt. pose proof (arc_weight_pos dt i Hdt) as Hw.
  unfold segment_point, homogeneous, arc_point. cbn [map app].
  entrywise ltac:(field; lra).
Qed.

(** C3.  The control points that the conic constructors hand to the curve
    object are in homogeneous form: each row is the Cartesian control point
    multiplied by its weight, followed by the weight, and the curve is
    flagged rational.  For [circle] the Cartesian points are those of the
    quadratic and of the quartic control polygon of the unit circle (the
    curve is then scaled by [r] and placed); for [circle_segment] with an
    angle between 0 and the full turn they are the points at the angles
    [i * dt], on the circle for even [i] and at distance [r / cos dt] for odd
    [i], with the positive weights 1 and [cos dt]; the full turn is handed to
    [circle]; an angle that is not positive yields no curve, hence no
    control point. *)
Theorem conic_controlpoints_homogeneous r center normal :
  0 < r ->
  (forall tag, quadratic_tag tag ->
     circle r center normal tag
     = Ok (flip_and_move_plane_geometry
             (imul (Curve quadratic_basis
                          (homogeneous_rows square_polygon quadratic_weights) true) r)
             center normal)) /\
  (forall tag, quartic_tag tag ->
     circle r center normal tag
     = Ok (flip_and_move_plane_geometry
             (imul (Curve quartic_basis
                          (homogeneous_rows quartic_polygon quartic_weights) true) r)
             center normal)) /\
  (forall theta, 0 < theta < 2 * PI ->
     let k := Zceil (theta / (2 * PI / 3)) in
     let dt := theta / IZR k / 2 in
     (forall i, 0 < arc_weight dt i) /\
     circle_segment theta r center normal
     = Ok (flip_and_move_plane_geometry
             (Curve (Basis 3 (arc_knot k theta) None)
                    (map (fun i => homogeneous (arc_point r dt i) (arc_weight dt i))
                         (Py.range (2 * k + 1)))
                    true)
             center normal)) /\
  circle_segment (2 * PI) r center normal = circle r center normal "p2C0" /\
  (forall theta, - (2 * PI) <= theta <= 0 ->
     ~ returns (circle_segment theta r center normal)).
Proof.
  intros Hr. pose proof PI_RGT_0 as Hpi.
  split; [|split; [|split; [|split]]].
  - intros tag Htag. now apply circle_quadratic.
  - intros tag Htag. rewrite <- quartic_homogeneous. now apply circle_quartic_code.
  - intros theta Hth k dt.
    destruct (spans_positive theta Hth) as [_ [_ Hdt]]. fold k in Hdt. fold dt in Hdt.
    split; [intros i; now apply arc_weight_pos|].
    pose proof (circle_segment_positive theta r center normal Hr Hth) as E.
    cbv zeta in E. fold k in E. fold dt in E. rewrite E.
    do 3 f_equal. apply map_ext. intros i. now apply segment_point_homogeneous.
  - unfold circle_segment.
    destruct (Rlt_dec (2 * PI) (Rabs (2 * PI))) as [Hgt|_].
    { rewrite Rabs_pos_eq in Hgt; lra. }
    destruct (Rle_dec r 0) as [Hle|_]; [lra|].
    destruct (Req_dec_T (2 * PI) (2 * PI)) as [_|Hne]; [reflexivity|contradiction].
  - intros theta [Hlo Hhi] [c Hc].
    destruct (Rle_dec theta (- (2 * PI / 3))) as [Hcw|Hcw].
    + destruct (circle_segment_clockwise theta r center normal Hr (conj Hlo Hcw))
        as [_ [_ E]].
      rewrite E in Hc. discriminate.
    + assert (Hz : - (2 * PI / 3) < theta <= 0) by lra.
      rewrite circle_segment_zero_spans in Hc;
        [discriminate|assumption| |lra|now apply spans_zero].
      rewrite Rabs_left1; lra.
Qed.
End Conics.

(** ** [polygon] *)

Section Polygon.

Lemma sum_of_squares_loop (l : list (R * R)) (a : R) :
  fold_left (fun dist p => dist + (snd p - fst p) ^ 2) l a
  = a + fold_right Rplus 0 (map (fun c => (snd c - fst c) ^ 2) l).
Proof.
  revert a. induction l as [|p l IH]; intros a; cbn [fold_left fold_right map].
  - lra.
  - rewrite IH. lra.
Qed.

Lemma polygon_knot_step_distance (knot prev pt : list R) :
  polygon_knot_step (knot, prev) pt
  = (knot ++ [last knot 0 + euclidean_distance prev pt], pt).
Proof.
  unfold polygon_knot_step, euclidean_distance.
  rewrite sum_of_squares_loop. now rewrite Rplus_0_l.
Qed.

(** The loop over [points[1:]] appends the cumulative distances. *)
Lemma polygon_knot_loop (rest : list (list R)) (knot : list R) (k : R) (prev : list R) :
  fst (fold_left polygon_knot_step rest (knot ++ [k], prev))
  = (knot ++ [k]) ++ cumulative_distance k prev rest.
Proof.
  revert knot k prev. induction rest as [|p rest IH]; intros knot k prev.
  - simpl. now rewrite app_nil_r.
  - cbn [fold_left cumulative_distance].
    rewrite polygon_knot_step_distance, last_last.
    rewrite IH. now rewrite <- app_assoc.
Qed.

Lemma slice_tail {A : Type} (a : A) (l : list A) :
  Py.slice (a :: l) (Some 1%Z) None = l.
Proof.
  unfold Py.slice.
  pose proof (PyFacts.bound_nat (length (a :: l)) 1) as E.
  change (Z.of_nat 1) with 1%Z in E. rewrite E.
  cbn [length]. replace (Nat.min 1 (S (length l))) with 1%nat by lia.
  cbn [skipn]. replace (S (length l) - 1)%nat with (length l) by lia.
  apply firstn_all.
Qed.

(** The knots that [polygon] hands to the basis constructor, and the points
    of the curve it returns: the inputs, or their running sums when
    [relative] is set. *)
Lemma polygon_knots (p0 : list R) (rest : list (list R)) (relative : bool) :
  polygon (p0 :: rest) relative
  = (b <- BSplineBasis 2 (chord_length_knots (p0 :: rest)) None ;;
     Ok (Curve b
               (if relative then fold_left polygon_relative_step rest [p0]
                else p0 :: rest)
               false)).
Proof.
  unfold polygon. rewrite PyFacts.getitem_first. cbn [bind].
  rewrite slice_tail.
  pose proof (polygon_knot_loop rest [0] 0 p0) as E. cbn [app] in E.
  destruct (fold_left polygon_knot_step rest ([0; 0], p0)) as [knot prev].
  cbn [fst] in E. subst knot.
  reflexivity.
Qed.


Lemma unit_step_east : euclidean_distance [0; 0] [1; 0] = 1.
Proof.
  unfold euclidean_distance. cbn [combine map fold_right fst snd].
  replace ((1 - 0) ^ 2 + ((0 - 0) ^ 2 + 0)) with 1 by ring. apply sqrt_1.
Qed.

Lemma unit_step_east_again : euclidean_distance [1; 0] [2; 0] = 1.
Proof.
  unfold euclidean_distance. cbn [combine map fold_right fst snd].
  replace ((2 - 1) ^ 2 + ((0 - 0) ^ 2 + 0)) with 1 by ring. apply sqrt_1.
Qed.

Lemma no_step : euclidean_distance [1; 0] [1; 0] = 0.
Proof.
  unfold euclidean_distance. cbn [combine map fold_right fst snd].
  replace ((1 - 1) ^ 2 + ((0 - 0) ^ 2 + 0)) with 0 by ring. apply sqrt_0.
Qed.

(** C9 (the code falls short of the claim).  Called with [relative=True] on
    the points [(0,0)], [(1,0)], [(1,0)], [polygon] returns the curve through
    [(0,0)], [(1,0)], [(2,0)], whose consecutive points are at distance 1
    from each other, on the knot vector [0, 0, 1, 1, 1]: the knots are the
    distances between the inputs as given, measured before the inputs are
    summed up, and not the knots [0, 0, 1, 2, 2] of the distances between the
    points of the curve. *)
Theorem polygon_relative_knots :
  polygon [[0; 0]; [1; 0]; [1; 0]] true
  = Ok (Curve (Basis 2 [0; 0; 1; 1; 1] None)
              [[0; 0]; [1; 0]; [2; 0]] false) /\
  chord_length_knots [[0; 0]; [1; 0]; [2; 0]] = [0; 0; 1; 2; 2] /\
  [0; 0; 1; 1; 1] <> chord_length_knots [[0; 0]; [1; 0]; [2; 0]].
Proof.
  assert (Hspec : chord_length_knots [[0; 0]; [1; 0]; [2; 0]] = [0; 0; 1; 2; 2]).
  { unfold chord_length_knots. cbn [cumulative_distance app last].
    rewrite unit_step_east, unit_step_east_again. entrywise lra. }
  repeat split; [|exact Hspec|].
  - rewrite polygon_knots.
    unfold chord_length_knots. cbn [cumulative_distance app last].
    rewrite unit_step_east, no_step.
    rewrite BSplineBasis_enough by (cbn [length]; lia).
    cbn [bind fold_left polygon_relative_step last app combine map fst snd].
    do 2 f_equal; entrywise lra.
  - rewrite Hspec. intros E. injection E as E _. lra.
Qed.

End Polygon.

(** ** The tabulated collaborators at work *)

(** Decide one lookup of the table. *)
Ltac table_case :=
  match goal with
  | |- context [Rlist_eq_dec ?a ?b] =>
      let e := fresh in
      destruct (Rlist_eq_dec a b) as [e|e];
      [try discriminate e | try (exfalso; apply e; reflexivity)]
  | |- context [matrix_eq_dec ?a ?b] =>
      let e := fresh in
      destruct (matrix_eq_dec a b) as [e|e];
      [try discriminate e | try (exfalso; apply e; reflexivity)]
  end.

Ltac table_step :=
  cbn; try unfold table_evaluate; try unfold table_solve; try unfold table_lstsq; cbn.

Ltac table_run := repeat (table_step; table_case); table_step.

Section Table.
#[local] Existing Instance table.

Lemma table_linear_at_0 :
  evaluate (Basis 2 [0; 0; 1; 1] None) [0] 0 = Ok [[1; 0]].
Proof. table_run. reflexivity. Qed.

Lemma table_lstsq_linear :
  np_linalg_lstsq [[1; 0]] [[1; 2]] = Ok [[1; 2]; [0; 0]].
Proof. table_run. reflexivity. Qed.

Lemma table_bezier_at_ends :
  evaluate (Basis 4 bezier_knots None) [0; 1] 0
  = Ok [[1; 0; 0; 0]; [0; 0; 0; 1]].
Proof. table_run. reflexivity. Qed.

Lemma table_bezier_d1_at_ends :
  evaluate (Basis 4 bezier_knots None) [0; 1] 1
  = Ok [[-3; 3; 0; 0]; [0; 0; -3; 3]].
Proof. table_run. reflexivity. Qed.

Lemma table_bezier_d1_at_start :
  evaluate (Basis 4 bezier_knots None) [0] 1 = Ok [[-3; 3; 0; 0]].
Proof. table_run. reflexivity. Qed.

Lemma table_bezier_d2_at_ends :
  evaluate (Basis 4 bezier_knots None) [0; 1] 2
  = Ok [[6; -12; 6; 0]; [0; 6; -12; 6]].
Proof. table_run. reflexivity. Qed.

Lemma table_imul_keeps_weights (r : R) : keeps_weights (fun c => imul c r).
Proof.
  intros [b cps rat] Hrat. cbn in Hrat. subst rat. cbn.
  repeat split. rewrite map_map. apply map_ext.
  intros row. unfold scale_row, weight. apply last_last.
Qed.

Lemma table_place_keeps_weights (center normal : list R) :
  keeps_weights (fun c => flip_and_move_plane_geometry c center normal).
Proof. intros c Hrat. cbn. unfold table_place. auto. Qed.


(** *** [least_square_fit] on one sample and two basis functions *)

Lemma linear_least_squares :
  least_squares_solution [[1; 0]] [[1; 2]] [[1; 2]; [0; 0]].
Proof.
  split; [repeat constructor|].
  intros Q [Hlen Hrows]. cbn in Hlen, Hrows.
  destruct Q as [|r1 [|r2 [|? ?]]]; try discriminate Hlen.
  inversion Hrows as [|? ? Hr1 Hrows']; subst.
  inversion Hrows' as [|? ? Hr2 _]; subst.
  destruct r1 as [|q11 [|q12 [|? ?]]]; try discriminate Hr1.
  destruct r2 as [|q21 [|q22 [|? ?]]]; try discriminate Hr2.
  unfold residual, matmul, msub, sumsq, vsub, dot, column. cbn.
  pose proof (Rle_0_sqr (q11 - 1)) as H1. unfold Rsqr in H1.
  pose proof (Rle_0_sqr (q12 - 2)) as H2. unfold Rsqr in H2.
  pose proof (Rle_0_sqr q21) as H3. unfold Rsqr in H3.
  pose proof (Rle_0_sqr q22) as H4. unfold Rsqr in H4.
  split; [lra|]. intros Hq.
  assert (Hz1 : Rsqr (q11 - 1) = 0) by (unfold Rsqr; lra).
  assert (Hz2 : Rsqr (q12 - 2) = 0) by (unfold Rsqr; lra).
  apply Rsqr_0_uniq in Hz1. apply Rsqr_0_uniq in Hz2.
  replace q11 with 1 by lra. replace q12 with 2 by lra. lra.
Qed.

(** Against C1 as stated: one sample row, a basis of two functions, and
    [least_square_fit] returns the curve of the least-norm solution. *)
Lemma least_square_fit_underdetermined :
  (len (NdArray float64 [[1%R; 2%R]])
   < num_functions (Basis 2 [0%R; 0%R; 1%R; 1%R] None))%nat /\
  least_square_fit (NdArray float64 [[1; 2]]) (Basis 2 [0; 0; 1; 1] None) [0]
  = Ok (Curve (Basis 2 [0; 0; 1; 1] None) [[1; 2]; [0; 0]] false) /\
  least_squares_solution [[1; 0]] [[1; 2]] [[1; 2]; [0; 0]].
Proof.
  split; [cbn; lia|]. split; [|exact linear_least_squares].
  unfold least_square_fit. rewrite table_linear_at_0. cbn [bind np_matrix rows_of].
  rewrite table_lstsq_linear. reflexivity.
Qed.

Lemma least_square_fit_solves_witness :
  evaluate (Basis 2 [0; 0; 1; 1] None) [0] 0 = Ok [[1; 0]] /\
  np_linalg_lstsq [[1; 0]] (np_matrix (NdArray float64 [[1; 2]])) = Ok [[1; 2]; [0; 0]] /\
  least_square_fit (NdArray float64 [[1; 2]]) (Basis 2 [0; 0; 1; 1] None) [0]
  = Ok (Curve (Basis 2 [0; 0; 1; 1] None) [[1; 2]; [0; 0]] false) /\
  residual [[1; 0]] [[1; 2]; [0; 0]] (np_matrix (NdArray float64 [[1; 2]])) = 0.
Proof.
  pose proof (least_square_fit_solves (NdArray float64 [[1; 2]])
                (Basis 2 [0; 0; 1; 1] None) [0] [[1; 0]] [[1; 2]; [0; 0]]
                table_linear_at_0 table_lstsq_linear) as [Hfit Hres].
  repeat split.
  - exact table_linear_at_0.
  - exact table_lstsq_linear.
  - exact Hfit.
  - apply Hres; [exact linear_least_squares|].
    exists [[1; 2]; [0; 0]]. split; [repeat constructor|].
    unfold matmul, dot, column. cbn. entrywise lra.
Defined.

(** *** [cubic_curve] through two points *)

Lemma bezier_basis (boundary : Boundary) :
  boundary = TANGENT \/ boundary = TANGENTNATURAL \/ boundary = NATURAL ->
  cubic_curve_basis boundary [0; 1] = Ok (Basis 4 bezier_knots None).
Proof. intros [-> | [-> | ->]]; reflexivity. Qed.

Lemma tangent_system_solved : matmul tangent_system tangent_solution = tangent_rhs.
Proof.
  unfold matmul, dot, column, tangent_system, tangent_solution, tangent_rhs. cbn.
  entrywise lra.
Qed.

(** Against C4 as stated: in the TANGENT regime a tangent matrix of one row
    instead of two is broadcast to both constraint rows, and the curve that
    solves the system is returned. *)
Lemma cubic_curve_single_tangent_row :
  required_tangent_rows TANGENT (len (NdArray float64 [[0; 0]; [1; 0]])) = Some 2%nat /\
  length [[1; 0]] <> 2%nat /\
  cubic_curve (NdArray float64 [[0; 0]; [1; 0]]) TANGENT (Some [0; 1]) [[1; 0]]
  = Ok (Curve (Basis 4 bezier_knots None) tangent_solution false) /\
  matmul tangent_system tangent_solution = tangent_rhs.
Proof.
  repeat split; [discriminate| |exact tangent_system_solved].
  unfold cubic_curve. cbn [parameter_sample bind].
  rewrite bezier_basis by auto. cbn [bind].
  rewrite table_bezier_at_ends. cbn [bind Py.getitem].
  change (Py.getitem [0; 1] 0) with (@Ok R 0).
  change (Py.getitem [0; 1] (-1)) with (@Ok R 1). cbn [bind].
  rewrite table_bezier_d1_at_ends. cbn.
  assert (Ex : setitem_rows float64 [[0; 0]; [1; 0]; [0; 0]; [1; 0]] 2 [[1; 0]]
               = Ok tangent_rhs) by reflexivity.
  assert (EN : setitem_rows float64
                            [[1; 0; 0; 0]; [0; 0; 0; 1]; [1; 0; 0; 0]; [0; 0; 0; 1]] 2
                            [[-3; 3; 0; 0]; [0; 0; -3; 3]]
               = Ok tangent_system) by reflexivity.
  rewrite Ex. cbn [bind]. rewrite EN. cbn [bind].
  table_run. reflexivity.
Qed.

Lemma cubic_curve_tangent_rows_witness :
  (TANGENT = TANGENT \/ TANGENT = TANGENTNATURAL) /\
  required_tangent_rows TANGENT (length [[0; 0]; [1; 0]]) = Some 2%nat /\
  length [[1; 0]; [1; 0]; [1; 0]] <> 2%nat /\
  length [[1; 0]; [1; 0]; [1; 0]] <> 1%nat /\
  cubic_curve (NdArray float64 [[0; 0]; [1; 0]]) TANGENT (Some [0; 1])
              [[1; 0]; [1; 0]; [1; 0]]
  = Raise (ValueError "could not broadcast input array").
Proof.
  assert (H1 : TANGENT = TANGENT \/ TANGENT = TANGENTNATURAL) by (left; reflexivity).
  assert (H2 : required_tangent_rows TANGENT (length [[0; 0]; [1; 0]]) = Some 2%nat)
    by reflexivity.
  assert (H3 : length [[1; 0]; [1; 0]; [1; 0]] <> 2%nat) by (simpl; lia).
  assert (H4 : length [[1; 0]; [1; 0]; [1; 0]] <> 1%nat) by (simpl; lia).
  repeat split; try assumption.
  destruct (cubic_curve_tangent_rows float64 [[0; 0]; [1; 0]] TANGENT (Some [0; 1])
              [[1; 0]; [1; 0]; [1; 0]] 2 H1 H2 H3 H4) as [_ Herr].
  apply (Herr [0; 1] (Basis 4 bezier_knots None)
              [[1; 0; 0; 0]; [0; 0; 0; 1]] [[-3; 3; 0; 0]; [0; 0; -3; 3]]).
  - reflexivity.
  - apply bezier_basis. auto.
  - exact table_bezier_at_ends.
  - exact table_bezier_d1_at_ends.
Defined.


(** *** The FREE and PERIODIC knot vectors on short samples *)

(** Against C6 as stated: on three parameter values index 4 and index -5 of
    the padded sequence are one and the same position; the code deletes that
    knot and the one after it, which leaves seven knots, not the padded
    sequence with that one position taken out; the basis constructor rejects
    the seven knots, and no curve is returned. *)
Lemma cubic_curve_free_three_values :
  Py.index (length (padded [0; 1; 2])) 4 = Py.index (length (padded [0; 1; 2])) (-5) /\
  cubic_curve_knot FREE [0; 1; 2] = Ok [0; 0; 0; 0; 2; 2; 2] /\
  without_indices [4; -5]%Z (padded [0; 1; 2]) = [0; 0; 0; 0; 2; 2; 2; 2] /\
  cubic_curve_knot FREE [0; 1; 2]
  <> Ok (without_indices [4; -5]%Z (padded [0; 1; 2])) /\
  cubic_curve_basis FREE [0; 1; 2]
  = Raise (ValueError "knot vector has too few elements") /\
  cubic_curve (NdArray float64 [[0; 0]; [1; 0]; [2; 0]]) FREE (Some [0; 1; 2]) []
  = Raise (ValueError "knot vector has too few elements").
Proof.
  assert (Hcode : cubic_curve_knot FREE [0; 1; 2] = Ok [0; 0; 0; 0; 2; 2; 2])
    by reflexivity.
  assert (Hspec : without_indices [4; -5]%Z (padded [0; 1; 2])
                  = [0; 0; 0; 0; 2; 2; 2; 2]) by reflexivity.
  assert (Hbasis : cubic_curve_basis FREE [0; 1; 2]
                   = Raise (ValueError "knot vector has too few elements")).
  { unfold cubic_curve_basis. rewrite Hcode. reflexivity. }
  split; [reflexivity|]. split; [exact Hcode|]. split; [exact Hspec|].
  split; [|split; [exact Hbasis|]].
  - rewrite Hcode, Hspec. intros E.
    injection E as E. apply (f_equal (@length R)) in E. discriminate E.
  - unfold cubic_curve. cbn [parameter_sample bind]. rewrite Hbasis. reflexivity.
Qed.

Lemma cubic_curve_free_witness :
  parameter_sample (NdArray float64 [[0; 0]; [1; 0]; [2; 0]; [3; 0]])
                   (Some [0; 1; 2; 3])
  = Ok [0; 1; 2; 3] /\
  (4 <= length [0; 1; 2; 3])%nat /\
  cubic_curve_knot FREE [0; 1; 2; 3]
  = Ok (without_indices [4; -5]%Z (padded [0; 1; 2; 3])) /\
  cubic_curve_basis FREE [0; 1; 2; 3]
  = Ok (Basis 4 (without_indices [4; -5]%Z (padded [0; 1; 2; 3])) None) /\
  without_indices [4; -5]%Z (padded [0; 1; 2; 3]) = [0; 0; 0; 0; 3; 3; 3; 3].
Proof.
  assert (H1 : parameter_sample (NdArray float64 [[0; 0]; [1; 0]; [2; 0]; [3; 0]])
                 (Some [0; 1; 2; 3]) = Ok [0; 1; 2; 3]) by reflexivity.
  assert (H2 : (4 <= length [0; 1; 2; 3])%nat) by (simpl; lia).
  destruct (cubic_curve_free (NdArray float64 [[0; 0]; [1; 0]; [2; 0]; [3; 0]])
              (Some [0; 1; 2; 3]) [0; 1; 2; 3] [] H1 H2)
    as [_ [_ [Hknot [Hbasis _]]]].
  repeat split; try assumption.
Defined.

(** Against C7 as stated: on a sample of two parameter values the PERIODIC
    regime raises IndexError at [t[-3]], before any basis exists. *)
Lemma cubic_curve_periodic_two_values :
  cubic_curve_basis PERIODIC [0; 1] = Raise IndexError /\
  cubic_curve (NdArray float64 [[0; 0]; [1; 0]]) PERIODIC (Some [0; 1]) []
  = Raise IndexError.
Proof. split; reflexivity. Qed.

Lemma cubic_curve_periodic_witness :
  parameter_sample (NdArray float64 [[0; 0]; [1; 0]; [0; 0]]) (Some [0; 1; 2])
  = Ok [0; 1; 2] /\
  (3 <= length [0; 1; 2])%nat /\
  cubic_curve_basis PERIODIC [0; 1; 2]
  = Ok (Basis 4 (periodic_knot [0; 1; 2]) (Some 1%Z)) /\
  periodic_knot [0; 1; 2] = [0 - 2; 1 - 2; 0; 0; 1; 2; 2; 2 + 1; 2 + 2].
Proof.
  assert (H1 : parameter_sample (NdArray float64 [[0; 0]; [1; 0]; [0; 0]]) (Some [0; 1; 2])
               = Ok [0; 1; 2]) by reflexivity.
  assert (H2 : (3 <= length [0; 1; 2])%nat) by (simpl; lia).
  destruct (cubic_curve_periodic (NdArray float64 [[0; 0]; [1; 0]; [0; 0]])
              (Some [0; 1; 2]) [0; 1; 2] [] H1 H2) as [Hbasis _].
  repeat split; try assumption.
Defined.

(** *** A plain list as point matrix *)

Lemma sorted_bezier_knots : sorted [0; 0; 0; 0; 1; 1; 1; 1] = bezier_knots.
Proof.
  unfold sorted. cbn [fold_right].
  repeat (cbn [insert_sorted];
          match goal with
          | |- context [Rle_dec ?a ?b] => destruct (Rle_dec a b); [|lra]
          end).
  reflexivity.
Qed.

Lemma hermite_bezier_basis :
  cubic_curve_basis HERMITE [0; 1] = Ok (Basis 4 bezier_knots None).
Proof.
  unfold cubic_curve_basis, cubic_curve_knot.
  change (Py.getitem [0; 1] 0) with (@Ok R 0).
  change (Py.getitem [0; 1] (-1)) with (@Ok R 1). cbn [bind repeat app].
  change (Py.slice [0; 1] (Some 1%Z) (Some (-1)%Z)) with (@nil R).
  now rewrite sorted_bezier_knots.
Qed.

Lemma cubic_curve_hermite_witness :
  parameter_sample (NdArray float64 [[0; 0]; [1; 0]]) (Some [0; 1]) = Ok [0; 1] /\
  cubic_curve_basis HERMITE [0; 1] = Ok (Basis 4 bezier_knots None) /\
  evaluate (Basis 4 bezier_knots None) [0; 1] 0
  = Ok [[1; 0; 0; 0]; [0; 0; 0; 1]] /\
  cubic_curve (NdArray float64 [[0; 0]; [1; 0]]) HERMITE (Some [0; 1]) [[1; 0]; [1; 0]]
  = Raise (NameError "getBasis").
Proof.
  assert (H1 : parameter_sample (NdArray float64 [[0; 0]; [1; 0]]) (Some [0; 1])
               = Ok [0; 1]) by reflexivity.
  destruct (cubic_curve_hermite_never_returns (NdArray float64 [[0; 0]; [1; 0]])
              (Some [0; 1]) [[1; 0]; [1; 0]]) as [_ Herr].
  repeat split.
  - exact hermite_bezier_basis.
  - exact table_bezier_at_ends.
  - exact (Herr [0; 1] _ _ H1 hermite_bezier_basis table_bezier_at_ends).
Defined.

(** Against C10 as stated: with [t] supplied, a list of points fails in the
    TANGENT regime with AttributeError and in the HERMITE regime with
    NameError, and neither is a TypeError. *)
Lemma cubic_curve_list_not_type_error :
  cubic_curve (PyList [[0; 0]; [1; 0]]) TANGENT (Some [0; 1]) [[1; 0]; [1; 0]]
  = Raise AttributeError /\
  cubic_curve (PyList [[0; 0]; [1; 0]]) HERMITE (Some [0; 1]) [[1; 0]; [1; 0]]
  = Raise (NameError "getBasis") /\
  AttributeError <> TypeError /\ NameError "getBasis" <> TypeError.
Proof.
  repeat split; try discriminate.
  - unfold cubic_curve. cbn [parameter_sample bind].
    rewrite bezier_basis by auto. cbn [bind].
    rewrite table_bezier_at_ends. cbn [bind].
    change (Py.getitem [0; 1] 0) with (@Ok R 0).
    change (Py.getitem [0; 1] (-1)) with (@Ok R 1). cbn [bind].
    rewrite table_bezier_d1_at_ends. reflexivity.
  - unfold cubic_curve. cbn [parameter_sample bind].
    rewrite hermite_bezier_basis. cbn [bind].
    rewrite table_bezier_at_ends. reflexivity.
Qed.

Lemma cubic_curve_list_input_witness :
  (Some [0; 1] = None \/ In TANGENT [TANGENT; TANGENTNATURAL; HERMITE; NATURAL]) /\
  (forall c, cubic_curve (PyList [[0; 0]; [1; 0]]) TANGENT (Some [0; 1])
                         [[1; 0]; [1; 0]] <> Ok c) /\
  cubic_curve (PyList [[0; 0]; [1; 0]]) TANGENT (Some [0; 1]) [[1; 0]; [1; 0]]
  = Raise AttributeError.
Proof.
  assert (H1 : Some [0; 1] = None
               \/ In TANGENT [TANGENT; TANGENTNATURAL; HERMITE; NATURAL])
    by (right; simpl; auto).
  destruct (cubic_curve_list_input [[0; 0]; [1; 0]] TANGENT (Some [0; 1])
              [[1; 0]; [1; 0]] H1) as [Hnever [_ [Hattr _]]].
  repeat split; try assumption.
  apply (Hattr [0; 1] (Basis 4 bezier_knots None)).
  - reflexivity.
  - simpl. auto.
  - apply bezier_basis. auto.
  - intros ts' d Hin. simpl in Hin.
    destruct Hin as [E|[E|[E|[E|[]]]]]; injection E as <- <-; eexists.
    + exact table_bezier_at_ends.
    + exact table_bezier_d1_at_ends.
    + exact table_bezier_d1_at_start.
    + exact table_bezier_d2_at_ends.
Defined.


(** *** The conic constructors at radius 1 *)

Lemma circle_parametrizations_witness :
  0 < 1 /\
  quadratic_tag "p2C0" /\
  (exists c,
     circle 1 [0; 0; 0] [0; 0; 1] "p2C0" = Ok c /\
     rational c = true /\ curve_basis c = quadratic_basis /\
     map weight (controlpoints c)
       = [1; 1 / sqrt 2; 1; 1 / sqrt 2; 1; 1 / sqrt 2; 1; 1 / sqrt 2]) /\
  circle 1 [0; 0; 0] [0; 0; 1] "p3C0" = Raise (ValueError "Unkown type: p3C0").
Proof.
  assert (H1 : 0 < 1) by lra.
  assert (H2 : quadratic_tag "p2C0") by (left; reflexivity).
  destruct (circle_parametrizations 1 [0; 0; 0] [0; 0; 1] "p2C0" H1)
    as [_ [_ [_ Hfinal]]].
  destruct (circle_parametrizations 1 [0; 0; 0] [0; 0; 1] "p3C0" H1)
    as [_ [_ [Hother _]]].
  repeat split; try assumption.
  - apply Hfinal; [apply table_imul_keeps_weights
                  |apply table_place_keeps_weights|exact H2].
  - apply Hother; intros [E|E]; discriminate E.
Defined.

Lemma conic_controlpoints_homogeneous_witness :
  0 < 1 /\
  circle 1 [0; 0; 0] [0; 0; 1] "p2C0"
  = Ok (flip_and_move_plane_geometry
          (imul (Curve quadratic_basis
                       (homogeneous_rows square_polygon quadratic_weights) true) 1)
          [0; 0; 0] [0; 0; 1]) /\
  circle_segment (2 * PI) 1 [0; 0; 0] [0; 0; 1] = circle 1 [0; 0; 0] [0; 0; 1] "p2C0".
Proof.
  assert (H1 : 0 < 1) by lra.
  destruct (conic_controlpoints_homogeneous 1 [0; 0; 0] [0; 0; 1] H1)
    as [Hquad [_ [_ [Hfull _]]]].
  repeat split; try assumption.
  apply Hquad. left. reflexivity.
Defined.

Lemma circle_segment_nonpositive_angle_witness :
  0 < 1 /\
  - (2 * PI / 3) < - (PI / 2) <= 0 /\
  circle_segment (- (PI / 2)) 1 [0; 0; 0] [0; 0; 1] = Raise ZeroDivisionError.
Proof.
  assert (H1 : 0 < 1) by lra.
  assert (H2 : - (2 * PI / 3) < - (PI / 2) <= 0)
    by (pose proof PI_RGT_0; lra).
  destruct (circle_segment_nonpositive_angle (- (PI / 2)) 1 [0; 0; 0] [0; 0; 1] H1 H2)
    as [_ [_ [_ E]]].
  repeat split; try assumption; apply H2.
Defined.

End Table.

(** * Further facts: the constructors the claims leave out *)

(** ** [n_gon] *)

Section NGon.
Context `{Collaborators}.

Lemma n_gon_loop (r dt : R) (l : list Z) (cp : matrix) (knot : list Z) :
  fold_left (n_gon_step r dt) l (cp, knot)
  = (cp ++ map (fun i => [r * cos (IZR i * dt); r * sin (IZR i * dt)]) l,
     knot ++ l).
Proof.
  revert cp knot. induction l as [|i l IH]; intros cp knot; cbn [fold_left map].
  - now rewrite !app_nil_r.
  - unfold n_gon_step at 2. rewrite IH, <- !app_assoc. reflexivity.
Qed.

Lemma range_length (n : Z) : length (Py.range n) = Z.to_nat n.
Proof. unfold Py.range. now rewrite length_map, length_seq. Qed.

(** What [n_gon] builds once its two guards are passed: the [n + 3] knots
    are enough for the order-2 basis. *)
Lemma n_gon_construction n r center normal :
  0 < r -> (3 <= n)%Z ->
  n_gon n r center normal
  = Ok (flip_and_move_plane_geometry
          (Curve (Basis 2 (map IZR ((-1)%Z :: Py.range n ++ [n; (n + 1)%Z]))
                               (Some 0%Z))
                 (map (n_gon_vertex n r) (Py.range n)) false)
          center normal).
Proof.
  intros Hr Hn. unfold n_gon.
  destruct (Rle_dec r 0) as [Hle|_]; [lra|].
  destruct (Z.ltb_spec n 3) as [Hlt|_]; [lia|].
  rewrite n_gon_loop.
  rewrite BSplineBasis_enough; [reflexivity|].
  rewrite length_map, !length_app, range_length. cbn [length]. lia.
Qed.

Lemma range_nth (n : Z) (i : nat) :
  (i < Z.to_nat n)%nat -> nth i (Py.range n) 0%Z = Z.of_nat i.
Proof.
  intros Hi. unfold Py.range.
  rewrite nth_indep with (d' := Z.of_nat 0)
    by (now rewrite length_map, length_seq).
  rewrite map_nth, seq_nth by assumption. reflexivity.
Qed.

Lemma range_In (n i : Z) : In i (Py.range n) <-> (0 <= i < n)%Z.
Proof.
  unfold Py.range. rewrite in_map_iff. split.
  - intros [k [<- Hk]]. apply in_seq in Hk. lia.
  - intros Hi. exists (Z.to_nat i). split; [lia|]. apply in_seq. lia.
Qed.

(** Chord between the points of the unit circle at the angles [a] and [b]. *)
Lemma chord_squared (a b : R) :
  (cos b - cos a) ^ 2 + (sin b - sin a) ^ 2 = 2 - 2 * cos (b - a).
Proof.
  rewrite cos_minus.
  pose proof (sin2_cos2 a) as Ha. pose proof (sin2_cos2 b) as Hb.
  unfold Rsqr in Ha, Hb. nra.
Qed.

(** X1.  [n_gon] checks the radius before the number of sides: a radius that
    is not positive raises the radius error whatever [n] is, fewer than 3
    sides with a positive radius raise the sides error, and a curve is
    returned exactly when [r > 0] and [n >= 3]. *)
Theorem n_gon_guards n r center normal :
  (r <= 0 ->
   n_gon n r center normal = Raise (ValueError "radius needs to be positive")) /\
  (0 < r -> (n < 3)%Z ->
   n_gon n r center normal
   = Raise (ValueError "regular polygons need at least 3 sides")) /\
  (returns (n_gon n r center normal) <-> 0 < r /\ (3 <= n)%Z).
Proof.
  assert (Hrad : r <= 0 -> n_gon n r center normal
                           = Raise (ValueError "radius needs to be positive")).
  { intros Hr. unfold n_gon. destruct (Rle_dec r 0); [reflexivity|contradiction]. }
  assert (Hsides : 0 < r -> (n < 3)%Z ->
                   n_gon n r center normal
                   = Raise (ValueError "regular polygons need at least 3 sides")).
  { intros Hr Hn. unfold n_gon. destruct (Rle_dec r 0); [lra|].
    destruct (Z.ltb_spec n 3); [reflexivity|lia]. }
  split; [exact Hrad|]. split; [exact Hsides|]. split.
  - intros [c Hc].
    destruct (Rle_dec r 0) as [Hle|Hgt].
    { rewrite Hrad in Hc by assumption. discriminate. }
    destruct (Z.lt_ge_cases n 3) as [Hlt|Hge].
    { rewrite Hsides in Hc by (lra || assumption). discriminate. }
    split; [lra|assumption].
  - intros [Hr Hn]. eexists. now apply n_gon_construction.
Qed.

(** X2.  For [r > 0] and [n >= 3], [n_gon] hands over a non-rational curve of
    exactly [n] control points, the first of them [(r, 0)] and every one of
    them on the circle of radius [r] about the origin, on the order-2 basis
    of periodic continuity 0 whose [n + 3] knots are the integers from -1 to
    [n + 1]; the curve is then placed by the plane placement. *)
Theorem n_gon_vertices n r center normal :
  0 < r -> (3 <= n)%Z ->
  exists cp knot,
    n_gon n r center normal
    = Ok (flip_and_move_plane_geometry
            (Curve (Basis 2 knot (Some 0%Z)) cp false) center normal) /\
    length cp = Z.to_nat n /\
    nth 0 cp [] = [r * 1; r * 0] /\
    Forall (fun p => exists x y, p = [x; y] /\ x * x + y * y = r * r) cp /\
    length knot = (Z.to_nat n + 3)%nat /\
    (forall j, (j < Z.to_nat n + 3)%nat -> nth j knot 0 = IZR (Z.of_nat j - 1)).
Proof.
  intros Hr Hn. eexists. eexists. split; [now apply n_gon_construction|].
  repeat split.
  - now rewrite length_map, range_length.
  - assert (Hne : nth 0 (Py.range n) 0%Z = 0%Z) by (rewrite range_nth; [reflexivity|lia]).
    rewrite nth_indep with (d' := n_gon_vertex n r 0%Z)
      by (rewrite length_map, range_length; lia).
    rewrite map_nth, Hne. unfold n_gon_vertex.
    rewrite Rmult_0_l, cos_0, sin_0. reflexivity.
  - apply Forall_forall. intros p Hp. apply in_map_iff in Hp.
    destruct Hp as [i [<- _]]. unfold n_gon_vertex. eexists. eexists.
    split; [reflexivity|].
    pose proof (sin2_cos2 (IZR i * (2 * PI / IZR n))) as Hsc. unfold Rsqr in Hsc.
    nra.
  - cbn [map length]. rewrite length_map, length_app, range_length. simpl. lia.
  - intros j Hj. destruct j as [|j].
    + reflexivity.
    + cbn [map nth]. rewrite (map_nth IZR). f_equal.
      destruct (Nat.lt_ge_cases j (Z.to_nat n)) as [Hlt|Hge].
      * rewrite app_nth1 by (now rewrite range_length).
        rewrite range_nth by assumption. lia.
      * rewrite app_nth2 by (now rewrite range_length).
        rewrite range_length.
        destruct (j - Z.to_nat n)%nat as [|[|k]] eqn:E; cbn [nth]; lia.
Qed.

Lemma n_gon_vertex_nth n r (i : nat) :
  (i < Z.to_nat n)%nat ->
  nth i (map (n_gon_vertex n r) (Py.range n)) [] = n_gon_vertex n r (Z.of_nat i).
Proof.
  intros Hi.
  rewrite nth_indep with (d' := n_gon_vertex n r 0%Z)
    by (now rewrite length_map, range_length).
  now rewrite map_nth, range_nth.
Qed.

(** X3.  The polygon of [n_gon] is regular: for [r > 0] and [n >= 3] every
    side, from control point [i] to control point [i + 1] and from the last
    control point back to the first, has the squared length
    [2 r^2 (1 - cos (2 pi / n))]. *)
Theorem n_gon_regular n r center normal :
  0 < r -> (3 <= n)%Z ->
  exists b cp,
    n_gon n r center normal
    = Ok (flip_and_move_plane_geometry (Curve b cp false) center normal) /\
    forall i, (i < Z.to_nat n)%nat ->
      distance2 (nth i cp []) (nth ((i + 1) mod Z.to_nat n) cp [])
      = 2 * r ^ 2 * (1 - cos (2 * PI / IZR n)).
Proof.
  intros Hr Hn. eexists. eexists. split; [now apply n_gon_construction|].
  intros i Hi.
  assert (Hnpos : 0 < IZR n) by (apply IZR_lt; lia).
  assert (Hmod : ((i + 1) mod Z.to_nat n < Z.to_nat n)%nat)
    by (apply Nat.mod_upper_bound; lia).
  rewrite !n_gon_vertex_nth by assumption.
  unfold distance2, n_gon_vertex. cbn [nth].
  set (dt := 2 * PI / IZR n).
  destruct (Nat.eq_dec (i + 1) (Z.to_nat n)) as [Hlast|Hin].
  - rewrite Hlast, Nat.Div0.mod_same. cbn [Z.of_nat].
    rewrite Rmult_0_l.
    replace ((r * cos 0 - r * cos (IZR (Z.of_nat i) * dt)) ^ 2
             + (r * sin 0 - r * sin (IZR (Z.of_nat i) * dt)) ^ 2)
      with (r ^ 2 * ((cos 0 - cos (IZR (Z.of_nat i) * dt)) ^ 2
                     + (sin 0 - sin (IZR (Z.of_nat i) * dt)) ^ 2)) by ring.
    rewrite chord_squared.
    assert (Hang : 0 - IZR (Z.of_nat i) * dt = dt - 2 * PI).
    { assert (Hi1 : IZR (Z.of_nat i) = IZR n - 1).
      { rewrite <- minus_IZR. f_equal. lia. }
      rewrite Hi1. unfold dt. field. lra. }
    rewrite Hang, cos_minus, cos_2PI, sin_2PI. ring.
  - rewrite Nat.mod_small by lia.
    replace (IZR (Z.of_nat (i + 1)) * dt) with (IZR (Z.of_nat i) * dt + dt)
      by (rewrite Nat2Z.inj_add, plus_IZR; simpl; ring).
    replace ((r * cos (IZR (Z.of_nat i) * dt + dt) - r * cos (IZR (Z.of_nat i) * dt)) ^ 2
             + (r * sin (IZR (Z.of_nat i) * dt + dt)
                - r * sin (IZR (Z.of_nat i) * dt)) ^ 2)
      with (r ^ 2 * ((cos (IZR (Z.of_nat i) * dt + dt) - cos (IZR (Z.of_nat i) * dt)) ^ 2
                     + (sin (IZR (Z.of_nat i) * dt + dt)
                        - sin (IZR (Z.of_nat i) * dt)) ^ 2)) by ring.
    rewrite chord_squared.
    replace (IZR (Z.of_nat i) * dt + dt - IZR (Z.of_nat i) * dt) with dt by ring.
    ring.
Qed.

End NGon.

Lemma n_gon_vertices_witness :
  0 < 1 /\ (3 <= 5)%Z /\
  exists cp knot,
    n_gon (H := table) 5 1 [0; 0; 0] [0; 0; 1]
    = Ok (Curve (Basis 2 knot (Some 0%Z)) cp false) /\
    length cp = 5%nat /\ length knot = 8%nat.
Proof.
  assert (H1 : 0 < 1) by lra. assert (H2 : (3 <= 5)%Z) by lia.
  destruct (n_gon_vertices (H := table) 5 1 [0; 0; 0] [0; 0; 1] H1 H2)
    as [cp [knot [E [Hlen [_ [_ [Hk _]]]]]]].
  repeat split; try assumption.
  exists cp, knot. repeat split; assumption.
Defined.

Lemma n_gon_regular_witness :
  0 < 1 /\ (3 <= 5)%Z /\
  exists b cp,
    n_gon (H := table) 5 1 [0; 0; 0] [0; 0; 1] = Ok (Curve b cp false) /\
    distance2 (nth 4 cp []) (nth 0 cp []) = 2 * 1 ^ 2 * (1 - cos (2 * PI / 5)).
Proof.
  assert (H1 : 0 < 1) by lra. assert (H2 : (3 <= 5)%Z) by lia.
  destruct (n_gon_regular (H := table) 5 1 [0; 0; 0] [0; 0; 1] H1 H2)
    as [b [cp [E Hside]]].
  repeat split; try assumption.
  exists b, cp. split; [exact E|]. exact (Hside 4%nat ltac:(simpl; lia)).
Defined.

(** ** [circle] and [circle_segment] beyond the claims *)

Section ConicsFurther.
Context `{Collaborators}.

(** X4.  [circle] checks the radius before the tag: a radius that is not
    positive raises the radius error whatever the tag is, and a curve is
    returned exactly when [r > 0] and the tag is one of "p2C0", "C0p2",
    "p4C1", "C1p4". *)
Theorem circle_guards r center normal tag :
  (r <= 0 ->
   circle r center normal tag = Raise (ValueError "radius needs to be positive")) /\
  (returns (circle r center normal tag)
   <-> 0 < r /\ (quadratic_tag tag \/ quartic_tag tag)).
Proof.
  assert (Hrad : r <= 0 -> circle r center normal tag
                           = Raise (ValueError "radius needs to be positive")).
  { intros Hr. unfold circle. destruct (Rle_dec r 0); [reflexivity|contradiction]. }
  split; [exact Hrad|]. split.
  - intros [c Hc].
    destruct (Rle_dec r 0) as [Hle|Hgt].
    { rewrite Hrad in Hc by assumption. discriminate. }
    split; [lra|].
    destruct (string_dec tag "p2C0") as [E1|N1]; [left; left; exact E1|].
    destruct (string_dec tag "C0p2") as [E2|N2]; [left; right; exact E2|].
    destruct (string_dec tag "p4C1") as [E3|N3]; [right; left; exact E3|].
    destruct (string_dec tag "C1p4") as [E4|N4]; [right; right; exact E4|].
    rewrite circle_unknown_tag in Hc; [discriminate|lra| |];
      intros [E|E]; contradiction.
  - intros [Hr [Htag|Htag]]; eexists.
    + now apply circle_quadratic.
    + now apply circle_quartic_code.
Qed.

(** X5.  [circle_segment] checks the angle, then the radius: an angle beyond
    the full turn raises the angle error whatever the radius is, then a
    radius that is not positive raises the radius error.  With a positive
    radius, an angle in [[-2 pi, -2 pi / 3]] gets a negative span count and
    the two knots [[0, theta]], which the basis constructor rejects with
    ValueError.  A curve is returned exactly when [r > 0] and the angle is
    in [(0, 2 pi]]. *)
Theorem circle_segment_domain theta r center normal :
  (2 * PI < Rabs theta ->
   circle_segment theta r center normal
   = Raise (ValueError "theta needs to be in range [-2pi,2pi]")) /\
  (Rabs theta <= 2 * PI -> r <= 0 ->
   circle_segment theta r center normal
   = Raise (ValueError "radius needs to be positive")) /\
  (0 < r -> - (2 * PI) <= theta <= - (2 * PI / 3) ->
   circle_segment theta r center normal
   = Raise (ValueError "knot vector has too few elements")) /\
  (returns (circle_segment theta r center normal)
   <-> 0 < r /\ 0 < theta <= 2 * PI).
Proof.
  pose proof PI_RGT_0 as Hpi.
  assert (Hang : 2 * PI < Rabs theta ->
                 circle_segment theta r center normal
                 = Raise (ValueError "theta needs to be in range [-2pi,2pi]")).
  { intros Hth. unfold circle_segment.
    destruct (Rlt_dec (2 * PI) (Rabs theta)); [reflexivity|contradiction]. }
  assert (Hrad : Rabs theta <= 2 * PI -> r <= 0 ->
                 circle_segment theta r center normal
                 = Raise (ValueError "radius needs to be positive")).
  { intros Hth Hr. unfold circle_segment.
    destruct (Rlt_dec (2 * PI) (Rabs theta)); [lra|].
    destruct (Rle_dec r 0); [reflexivity|contradiction]. }
  assert (Hcw : 0 < r -> - (2 * PI) <= theta <= - (2 * PI / 3) ->
                circle_segment theta r center normal
                = Raise (ValueError "knot vector has too few elements")).
  { intros Hr Hth.
    now destruct (circle_segment_clockwise theta r center normal Hr Hth)
      as [_ [_ E]]. }
  split; [exact Hang|]. split; [exact Hrad|]. split; [exact Hcw|]. split.
  - intros [c Hc].
    destruct (Rlt_dec (2 * PI) (Rabs theta)) as [Hbig|Hsmall].
    { rewrite Hang in Hc by assumption. discriminate. }
    apply Rnot_lt_le in Hsmall.
    destruct (Rle_dec r 0) as [Hle|Hgt].
    { rewrite Hrad in Hc by assumption. discriminate. }
    split; [lra|].
    assert (Hrange : - (2 * PI) <= theta <= 2 * PI).
    { unfold Rabs in Hsmall. destruct (Rcase_abs theta); lra. }
    destruct (Rlt_dec 0 theta) as [Hpos|Hneg]; [lra|].
    exfalso.
    destruct (Rle_dec theta (- (2 * PI / 3))) as [Hneg'|Hz].
    + rewrite Hcw in Hc; [discriminate|lra|lra].
    + rewrite circle_segment_zero_spans in Hc;
        [discriminate|lra|assumption|lra|apply spans_zero; lra].
  - intros [Hr [Hpos Hle]].
    destruct (Req_dec_T theta (2 * PI)) as [->|Hne].
    + unfold circle_segment.
      destruct (Rlt_dec (2 * PI) (Rabs (2 * PI))) as [Hgt|_].
      { rewrite Rabs_pos_eq in Hgt; lra. }
      destruct (Rle_dec r 0) as [Hle0|_]; [lra|].
      destruct (Req_dec_T (2 * PI) (2 * PI)) as [_|Hn]; [|contradiction].
      eexists. apply circle_quadratic; [assumption|left; reflexivity].
    + eexists. apply circle_segment_positive; [assumption|lra].
Qed.

(** *** The arc of a positive angle *)

Lemma doubled_nth (l : list Z) (j : nat) (d : Z) :
  nth (2 * j) (flat_map (fun i => [i; i]) l) d = nth j l d /\
  nth (2 * j + 1) (flat_map (fun i => [i; i]) l) d = nth j l d.
Proof.
  revert j. induction l as [|a l IH]; intros j.
  - cbn [flat_map]. split;
      [destruct (2 * j)%nat|destruct (2 * j + 1)%nat]; destruct j; reflexivity.
  - destruct j as [|j]; [simpl; auto|].
    replace (2 * S j)%nat with (S (S (2 * j))) by lia.
    replace (S (S (2 * j)) + 1)%nat with (S (S (2 * j + 1))) by lia.
    cbn [flat_map app nth]. apply IH.
Qed.

Lemma doubled_length (l : list Z) :
  length (flat_map (fun i => [i; i]) l) = (2 * length l)%nat.
Proof. induction l as [|a l IH]; simpl; [reflexivity|]. rewrite IH. lia. Qed.

(** The integers [0, 0, 0, 1, 1, ..., k, k, k] before they are scaled. *)
Lemma arc_knot_integers (k : Z) :
  (1 <= k)%Z ->
  let l := [0%Z] ++ flat_map (fun i => [i; i]) (Py.range (k + 1)) ++ [k] in
  length l = (2 * Z.to_nat k + 4)%nat /\
  nth 0 l 0%Z = 0%Z /\
  nth (2 * Z.to_nat k + 3) l 0%Z = k /\
  forall j, (j <= Z.to_nat k)%nat ->
    nth (2 * j + 1) l 0%Z = Z.of_nat j /\ nth (2 * j + 2) l 0%Z = Z.of_nat j.
Proof.
  intros Hk l. unfold l.
  assert (Hlen : length (flat_map (fun i => [i; i]) (Py.range (k + 1)))
                 = (2 * Z.to_nat k + 2)%nat).
  { rewrite doubled_length, range_length. lia. }
  repeat split.
  - cbn [app length]. rewrite length_app, Hlen. simpl. lia.
  - replace (2 * Z.to_nat k + 3)%nat with (S (2 * Z.to_nat k + 2)) by lia.
    cbn [app nth]. rewrite app_nth2 by lia. rewrite Hlen, Nat.sub_diag. reflexivity.
  - replace (2 * j + 1)%nat with (S (2 * j)) by lia.
    cbn [app nth]. rewrite app_nth1 by lia.
    destruct (doubled_nth (Py.range (k + 1)) j 0%Z) as [E _]. rewrite E.
    apply range_nth. lia.
  - replace (2 * j + 2)%nat with (S (2 * j + 1)) by lia.
    cbn [app nth]. rewrite app_nth1 by lia.
    destruct (doubled_nth (Py.range (k + 1)) j 0%Z) as [_ E]. rewrite E.
    apply range_nth. lia.
Qed.

Lemma arc_knot_nth (k : Z) (theta : R) (j : nat) :
  nth j (arc_knot k theta) 0
  = IZR (nth j ([0%Z] ++ flat_map (fun i => [i; i]) (Py.range (k + 1)) ++ [k]) 0%Z)
    / IZR k * theta.
Proof.
  unfold arc_knot.
  destruct (Nat.lt_ge_cases j
              (length ([0%Z] ++ flat_map (fun i => [i; i]) (Py.range (k + 1)) ++ [k])))
    as [Hlt|Hge].
  - rewrite nth_indep with (d' := IZR 0 / IZR k * theta)
      by (now rewrite length_map).
    now rewrite (map_nth (fun i => IZR i / IZR k * theta)).
  - rewrite !nth_overflow by (rewrite ?length_map; assumption).
    unfold Rdiv. now rewrite !Rmult_0_l.
Qed.

(** X6.  For [r > 0] and [0 < theta < 2 pi], [circle_segment] hands over a
    rational curve whose first control point is [(r, 0)] with weight 1, whose
    last control point is [(r cos theta, r sin theta)] with weight 1, and
    whose every control point is stored on the circle of radius [r] with a
    weight between 1/2 and 1. *)
Theorem circle_segment_endpoints theta r center normal :
  0 < r -> 0 < theta < 2 * PI ->
  exists b cp,
    circle_segment theta r center normal
    = Ok (flip_and_move_plane_geometry (Curve b cp true) center normal) /\
    nth 0 cp [] = [r; 0; 1] /\
    last cp [] = [r * cos theta; r * sin theta; 1] /\
    Forall (fun p => exists x y w,
              p = [x; y; w] /\ x * x + y * y = r * r /\ 1 / 2 <= w <= 1) cp.
Proof.
  intros Hr Hth. pose proof PI_RGT_0 as Hpi.
  destruct (spans_positive theta Hth) as [Hk [_ Hdt]].
  set (k := Zceil (theta / (2 * PI / 3))) in *.
  set (dt := theta / IZR k / 2) in *.
  assert (Hkpos : 0 < IZR k) by (apply IZR_lt; lia).
  eexists. eexists. split; [now apply circle_segment_positive|].
  fold k. fold dt.
  assert (Hrange : Py.range (2 * k + 1)
                   = map Z.of_nat (seq 0 (2 * Z.to_nat k)) ++ [(2 * k)%Z]).
  { unfold Py.range.
    replace (Z.to_nat (2 * k + 1)) with (S (2 * Z.to_nat k)) by lia.
    rewrite seq_S, map_app. cbn [map Nat.add]. do 2 f_equal. lia. }
  repeat split.
  - rewrite nth_indep with (d' := segment_point r dt 0%Z)
      by (rewrite length_map, range_length; lia).
    rewrite map_nth, range_nth by lia. unfold segment_point, arc_weight.
    cbn [Z.of_nat Z.even]. rewrite Rmult_0_l, cos_0, sin_0.
    entrywise lra.
  - rewrite Hrange, map_app. cbn [map]. rewrite last_last.
    unfold segment_point, arc_weight.
    replace (Z.even (2 * k)) with true by (symmetry; apply Z.even_spec; now exists k).
    replace (IZR (2 * k) * dt) with theta
      by (rewrite mult_IZR; unfold dt; field; lra).
    reflexivity.
  - apply Forall_forall. intros p Hp. apply in_map_iff in Hp.
    destruct Hp as [i [<- _]]. unfold segment_point.
    eexists. eexists. eexists. split; [reflexivity|]. split.
    + pose proof (sin2_cos2 (IZR i * dt)) as Hsc. unfold Rsqr in Hsc. nra.
    + unfold arc_weight. destruct (Z.even i); [lra|].
      split.
      * rewrite <- cos_PI3. apply cos_decr_1; lra.
      * apply COS_bound.
Qed.

(** X7.  For [r > 0] and [0 < theta < 2 pi] the span count [k] of
    [circle_segment] is the least number of spans of at most [2 pi / 3] each
    (between 1 and 3); the curve has [2 k + 1] control points on an order-3
    basis of [2 k + 4] knots, three more than control points; the knots run
    from 0 to [theta], and the knot of every span end [j theta / k] stands
    twice in a row, so that the first and the last knot stand three times. *)
Theorem circle_segment_knots theta r center normal :
  0 < r -> 0 < theta < 2 * PI ->
  exists k knot cp,
    circle_segment theta r center normal
    = Ok (flip_and_move_plane_geometry
            (Curve (Basis 3 knot None) cp true) center normal) /\
    (1 <= k <= 3)%Z /\
    IZR (k - 1) * (2 * PI / 3) < theta <= IZR k * (2 * PI / 3) /\
    length cp = (2 * Z.to_nat k + 1)%nat /\
    length knot = (length cp + 3)%nat /\
    nth 0 knot 0 = 0 /\
    nth (2 * Z.to_nat k + 3) knot 0 = theta /\
    forall j, (j <= Z.to_nat k)%nat ->
      nth (2 * j + 1) knot 0 = INR j * theta / IZR k /\
      nth (2 * j + 2) knot 0 = INR j * theta / IZR k.
Proof.
  intros Hr Hth. pose proof two_thirds_turn_pos as Hd.
  destruct (spans_positive theta Hth) as [Hk [Hq _]].
  set (k := Zceil (theta / (2 * PI / 3))) in *.
  assert (Hkpos : 0 < IZR k) by (apply IZR_lt; lia).
  destruct (arc_knot_integers k ltac:(lia)) as [Hlen [H0 [Hlast Hmid]]].
  cbv zeta in Hlen, H0, Hlast, Hmid.
  exists k. eexists. eexists. split; [now apply circle_segment_positive|].
  fold k.
  assert (Hcp : length (map (segment_point r (theta / IZR k / 2)) (Py.range (2 * k + 1)))
                = (2 * Z.to_nat k + 1)%nat).
  { rewrite length_map, range_length. lia. }
  split; [exact Hk|]. split.
  { rewrite minus_IZR. destruct Hq as [Hlo Hhi]. split.
    - apply Rmult_lt_reg_r with (/ (2 * PI / 3)); [now apply Rinv_0_lt_compat|].
      rewrite Rmult_assoc, Rinv_r by lra. unfold Rdiv in Hlo. lra.
    - apply Rmult_le_reg_r with (/ (2 * PI / 3)); [now apply Rinv_0_lt_compat|].
      rewrite Rmult_assoc, Rinv_r by lra. unfold Rdiv in Hhi. lra. }
  split; [exact Hcp|]. split.
  { rewrite Hcp. unfold arc_knot. rewrite length_map, Hlen. lia. }
  split.
  { rewrite arc_knot_nth, H0. unfold Rdiv. now rewrite !Rmult_0_l. }
  split.
  { rewrite arc_knot_nth, Hlast. field. lra. }
  intros j Hj. destruct (Hmid j Hj) as [E1 E2].
  rewrite !arc_knot_nth, E1, E2, <- INR_IZR_INZ. split; field; lra.
Qed.

End ConicsFurther.

Lemma circle_segment_endpoints_witness :
  0 < 1 /\ 0 < PI < 2 * PI /\
  exists b cp,
    circle_segment (H := table) PI 1 [0; 0; 0] [0; 0; 1] = Ok (Curve b cp true) /\
    nth 0 cp [] = [1; 0; 1] /\ last cp [] = [1 * cos PI; 1 * sin PI; 1].
Proof.
  assert (H1 : 0 < 1) by lra.
  assert (H2 : 0 < PI < 2 * PI) by (pose proof PI_RGT_0; lra).
  destruct (circle_segment_endpoints (H := table) PI 1 [0; 0; 0] [0; 0; 1] H1 H2)
    as [b [cp [E [Hfirst [Hlast _]]]]].
  repeat split; try assumption; try apply H2.
  exists b, cp. repeat split; assumption.
Defined.

Lemma circle_segment_knots_witness :
  0 < 1 /\ 0 < PI < 2 * PI /\
  exists k knot cp,
    circle_segment (H := table) PI 1 [0; 0; 0] [0; 0; 1]
    = Ok (Curve (Basis 3 knot None) cp true) /\
    (1 <= k <= 3)%Z /\ length knot = (length cp + 3)%nat.
Proof.
  assert (H1 : 0 < 1) by lra.
  assert (H2 : 0 < PI < 2 * PI) by (pose proof PI_RGT_0; lra).
  destruct (circle_segment_knots (H := table) PI 1 [0; 0; 0] [0; 0; 1] H1 H2)
    as [k [knot [cp [E [Hk [_ [_ [Hlen _]]]]]]]].
  repeat split; try assumption; try apply H2.
  exists k, knot, cp. repeat split; try assumption; apply Hk.
Defined.

(** ** [polygon] beyond the claims *)

Section PolygonFurther.

Lemma euclidean_distance_nonneg (p q : list R) : 0 <= euclidean_distance p q.
Proof. unfold euclidean_distance. apply sqrt_pos. Qed.

Lemma cumulative_distance_length (s : R) (p : list R) (rest : list (list R)) :
  length (cumulative_distance s p rest) = length rest.
Proof.
  revert s p. induction rest as [|q rest IH]; intros s p; simpl; [reflexivity|].
  now rewrite IH.
Qed.

(** Consecutive entries of the cumulative distances differ by the distance of
    the corresponding points. *)
Lemma cumulative_distance_step (s : R) (p : list R) (rest : list (list R)) (i : nat) :
  (i < length rest)%nat ->
  nth (S i) (s :: cumulative_distance s p rest) 0
  - nth i (s :: cumulative_distance s p rest) 0
  = euclidean_distance (nth i (p :: rest) []) (nth (S i) (p :: rest) []).
Proof.
  revert s p i. induction rest as [|q rest IH]; intros s p i Hi; [simpl in Hi; lia|].
  destruct i as [|i].
  - cbn [cumulative_distance nth]. lra.
  - cbn [cumulative_distance]. simpl in Hi.
    change (nth (S (S i)) (s :: ?l) 0) with (nth (S i) l 0).
    change (nth (S i) (s :: ?l) 0) with (nth i l 0).
    change (nth (S i) (p :: ?l) []) with (nth i l []).
    change (nth (S (S i)) (p :: ?l) []) with (nth (S i) l []).
    apply IH. lia.
Qed.

Lemma polygon_empty (relative : bool) : polygon [] relative = Raise IndexError.
Proof. reflexivity. Qed.

Lemma chord_length_knots_length (p0 : list R) (rest : list (list R)) :
  length (chord_length_knots (p0 :: rest)) = (length rest + 3)%nat.
Proof.
  unfold chord_length_knots. cbn [app length].
  rewrite length_app, cumulative_distance_length. cbn [length]. lia.
Qed.

(** A single point gets the three knots [0, 0, 0], too few for order 2. *)
Lemma polygon_single_point (p0 : list R) (relative : bool) :
  polygon [p0] relative = Raise (ValueError "knot vector has too few elements").
Proof.
  rewrite polygon_knots.
  rewrite BSplineBasis_too_few; [reflexivity|].
  rewrite chord_length_knots_length. cbn [length]. lia.
Qed.

(** Two points or more get enough knots. *)
Lemma polygon_points (p0 p1 : list R) (rest : list (list R)) (relative : bool) :
  polygon (p0 :: p1 :: rest) relative
  = Ok (Curve (Basis 2 (chord_length_knots (p0 :: p1 :: rest)) None)
              (if relative then fold_left polygon_relative_step (p1 :: rest) [p0]
               else p0 :: p1 :: rest)
              false).
Proof.
  rewrite polygon_knots.
  rewrite BSplineBasis_enough; [reflexivity|].
  rewrite chord_length_knots_length. cbn [length]. lia.
Qed.

(** X8.  [polygon] raises IndexError on an empty sequence of points, and on
    a single point the ValueError of the basis constructor, which gets the
    three knots [0, 0, 0].  On [n >= 2] points of one dimension [d >= 1],
    with or without [relative], it returns a curve on an order-2 basis of
    [n + 2] knots: the first two knots are 0, the last knot stands twice, and
    each knot in between exceeds the one before it by the Euclidean distance
    between the two corresponding input points, so that the knots never
    decrease.  Without [relative] the control points are the input
    points. *)
Theorem polygon_chord_length (pts : list (list R)) (relative : bool) :
  (pts = [] -> polygon pts relative = Raise IndexError) /\
  (length pts = 1%nat ->
   polygon pts relative = Raise (ValueError "knot vector has too few elements")) /\
  (forall d,
   (2 <= length pts)%nat -> (0 < d)%nat -> Forall (fun q => length q = d) pts ->
   exists knot cps,
     polygon pts relative = Ok (Curve (Basis 2 knot None) cps false) /\
     (relative = false -> cps = pts) /\
     length knot = (length pts + 2)%nat /\
     nth 0 knot 0 = 0 /\ nth 1 knot 0 = 0 /\
     nth (length pts + 1) knot 0 = nth (length pts) knot 0 /\
     forall i, (S i < length pts)%nat ->
       nth (i + 2) knot 0 - nth (i + 1) knot 0
       = euclidean_distance (nth i pts []) (nth (S i) pts []) /\
       nth (i + 1) knot 0 <= nth (i + 2) knot 0).
Proof.
  split; [intros ->; apply polygon_empty|]. split.
  { intros Hone. destruct pts as [|p0 [|p1 rest]]; try discriminate Hone.
    apply polygon_single_point. }
  intros d Hlen _ _. destruct pts as [|p0 [|p1 rest']]; simpl in Hlen; try lia.
  eexists. eexists. split; [apply polygon_points|].
  set (rest := p1 :: rest').
  set (cum := cumulative_distance 0 p0 rest).
  assert (Hcum : length cum = length rest) by apply cumulative_distance_length.
  assert (Hrest : length rest = S (length rest')) by reflexivity.
  split; [intros ->; reflexivity|].
  unfold chord_length_knots. fold cum. cbn [app length].
  split; [rewrite length_app, Hcum; simpl; lia|].
  split; [reflexivity|]. split; [reflexivity|]. split.
  - replace (S (length rest) + 1)%nat with (S (S (length cum + 0))) by lia.
    replace (S (length rest)) with (S (length cum)) by lia.
    cbn [nth]. rewrite app_nth2 by lia.
    replace (length cum + 0 - length cum)%nat with 0%nat by lia. cbn [nth].
    destruct cum as [|c cum'] using rev_ind; [reflexivity|].
    rewrite length_app. cbn [length].
    replace (length cum' + 1)%nat with (S (length cum')) by lia.
    rewrite app_comm_cons, last_last.
    rewrite <- app_assoc. cbn [nth].
    rewrite app_nth2 by lia. now rewrite Nat.sub_diag.
  - intros i Hi. simpl in Hi.
    assert (Hstep := cumulative_distance_step 0 p0 rest i ltac:(lia)).
    fold cum in Hstep.
    replace (i + 2)%nat with (S (S i)) by lia.
    replace (i + 1)%nat with (S i) by lia.
    change (nth (S (S i)) (0 :: 0 :: ?l) 0) with (nth (S i) (0 :: l) 0).
    change (nth (S i) (0 :: 0 :: ?l) 0) with (nth i (0 :: l) 0).
    assert (E1 : nth (S i) (0 :: cum ++ [last (0 :: cum) 0]) 0 = nth (S i) (0 :: cum) 0).
    { cbn [nth]. apply app_nth1. lia. }
    assert (E2 : nth i (0 :: cum ++ [last (0 :: cum) 0]) 0 = nth i (0 :: cum) 0).
    { destruct i; [reflexivity|]. cbn [nth]. apply app_nth1. lia. }
    rewrite E1, E2. split; [exact Hstep|].
    pose proof (euclidean_distance_nonneg (nth i (p0 :: rest) [])
                  (nth (S i) (p0 :: rest) [])).
    lra.
Qed.

(** *** Relative points *)

Lemma relative_loop (rest : list (list R)) (acc : list (list R)) (p : list R) :
  fold_left polygon_relative_step rest (acc ++ [p])
  = acc ++ p :: running_sums p rest.
Proof.
  revert acc p. induction rest as [|q rest IH]; intros acc p.
  - reflexivity.
  - cbn [fold_left running_sums]. unfold polygon_relative_step at 2.
    rewrite last_last, IH, <- app_assoc. reflexivity.
Qed.

Lemma running_sums_length (p : list R) (rest : list (list R)) :
  length (running_sums p rest) = length rest.
Proof.
  revert p. induction rest as [|q rest IH]; intros p; simpl; [reflexivity|].
  now rewrite IH.
Qed.

Lemma sum_length (a b : list R) :
  length (map (fun c => fst c + snd c) (combine a b)) = Nat.min (length a) (length b).
Proof. now rewrite length_map, length_combine. Qed.

(** Taking the first summand off a sum gives the second one back. *)
Lemma vsub_sum (a b : list R) :
  length a = length b ->
  vsub (map (fun c => fst c + snd c) (combine a b)) a = b.
Proof.
  revert b. induction a as [|x a IH]; intros [|y b] Hlen; try discriminate.
  - reflexivity.
  - unfold vsub in *. cbn [combine map fst snd]. f_equal; [lra|].
    apply IH. now injection Hlen.
Qed.

Lemma running_sums_step (d : nat) (p : list R) (rest : list (list R)) (i : nat) :
  length p = d -> Forall (fun q => length q = d) rest ->
  (i < length rest)%nat ->
  length (nth i (p :: running_sums p rest) []) = d /\
  vsub (nth (S i) (p :: running_sums p rest) []) (nth i (p :: running_sums p rest) [])
  = nth i rest [].
Proof.
  revert p i. induction rest as [|q rest IH]; intros p i Hp Hall Hi;
    [simpl in Hi; lia|].
  inversion Hall as [|? ? Hq Hrest]; subst.
  destruct i as [|i].
  - cbn [running_sums nth]. split; [reflexivity|]. apply vsub_sum. congruence.
  - cbn [running_sums]. simpl in Hi.
    change (nth (S (S i)) (p :: ?l) []) with (nth (S i) l []).
    change (nth (S i) (p :: ?l) []) with (nth i l []).
    change (nth (S i) (q :: rest) []) with (nth i rest []).
    apply IH; [|assumption|lia].
    rewrite sum_length, Hq. apply Nat.min_id.
Qed.

(** X9.  With [relative] set, [polygon] returns for two or more inputs of
    one dimension [d >= 1] as many control points as it is given points; the
    first is the first input, and every further control point minus the
    control point before it is the corresponding input, the inputs being
    steps from one point to the next. *)
Theorem polygon_relative_steps (p0 p1 : list R) (rest : list (list R)) :
  (0 < length p0)%nat ->
  Forall (fun q => length q = length p0) (p1 :: rest) ->
  exists b cps,
    polygon (p0 :: p1 :: rest) true = Ok (Curve b cps false) /\
    length cps = S (S (length rest)) /\
    nth 0 cps [] = p0 /\
    forall i, (i < S (length rest))%nat ->
      vsub (nth (S i) cps []) (nth i cps []) = nth (S i) (p0 :: p1 :: rest) [].
Proof.
  intros _ Hall.
  eexists. eexists. split; [apply polygon_points|].
  pose proof (relative_loop (p1 :: rest) [] p0) as E. cbn [app] in E. rewrite E.
  split; [cbn [length]; now rewrite running_sums_length|].
  split; [reflexivity|].
  intros i Hi.
  now apply (running_sums_step (length p0) p0 (p1 :: rest) i eq_refl Hall Hi).
Qed.

End PolygonFurther.

(** ** [cubic_curve] beyond the claims *)

(** *** Arrays *)

Section Arrays.

Lemma rows_nth_ext (a b : matrix) :
  length a = length b ->
  (forall i, (i < length a)%nat -> nth i a [] = nth i b []) -> a = b.
Proof. intros Hlen Hnth. now apply nth_ext with (d := []) (d' := []). Qed.

Lemma row_nth_ext (a b : list R) :
  length a = length b ->
  (forall j, (j < length a)%nat -> nth j a 0 = nth j b 0) -> a = b.
Proof. intros Hlen Hnth. now apply nth_ext with (d := 0) (d' := 0). Qed.

Lemma has_shape_nth (a : matrix) (m c i : nat) :
  has_shape a m c -> (i < m)%nat -> length (nth i a []) = c.
Proof.
  intros [Hlen Hrows] Hi. rewrite Forall_forall in Hrows.
  apply Hrows, nth_In. lia.
Qed.

Lemma has_shape_ncols (a : matrix) (m c : nat) :
  has_shape a m c -> (0 < m)%nat -> ncols a = c.
Proof.
  intros [Hlen Hrows] Hm. destruct a as [|row a]; [simpl in Hlen; lia|].
  now inversion Hrows.
Qed.

Lemma has_shape_app (a b : matrix) (m k c : nat) :
  has_shape a m c -> has_shape b k c -> has_shape (a ++ b) (m + k) c.
Proof.
  intros [Ha Hra] [Hb Hrb]. split.
  - rewrite length_app. lia.
  - apply Forall_app. now split.
Qed.

Lemma concat_shape_length (a : matrix) (m c : nat) :
  has_shape a m c -> length (concat a) = (m * c)%nat.
Proof.
  revert m. induction a as [|row a IH]; intros m [Hlen Hrows].
  - simpl in *. subst m. reflexivity.
  - inversion Hrows as [|? ? Hrow Hrest]. simpl in Hlen. subst m.
    cbn [concat]. rewrite length_app, (IH (length a)) by (now split). simpl. lia.
Qed.

(** Entry [(i, j)] of an array in its flattened data. *)
Lemma concat_shape_nth (a : matrix) (m c i j : nat) :
  has_shape a m c -> (i < m)%nat -> (j < c)%nat ->
  nth (i * c + j) (concat a) 0 = nth j (nth i a []) 0.
Proof.
  revert m i. induction a as [|row a IH]; intros m i [Hlen Hrows] Hi Hj.
  - simpl in Hlen. lia.
  - inversion Hrows as [|? ? Hrow Hrest]. simpl in Hlen.
    cbn [concat]. destruct i as [|i].
    + cbn [nth Nat.mul Nat.add]. apply app_nth1. lia.
    + rewrite app_nth2 by (simpl; lia).
      replace (S i * c + j - length row)%nat with (i * c + j)%nat by (simpl; lia).
      cbn [nth]. apply (IH (length a)); [now split|lia|assumption].
Qed.

Lemma firstn_seq_app (s m k : nat) : firstn m (seq s (m + k)) = seq s m.
Proof.
  rewrite seq_app. rewrite <- (length_seq m s) at 1.
  rewrite firstn_app, Nat.sub_diag, firstn_all. cbn [firstn]. apply app_nil_r.
Qed.

(** [np.resize] to more rows of the same width keeps the rows there are. *)
Lemma np_resize_prefix (a : matrix) (m c k : nat) :
  has_shape a m c -> firstn m (np_resize a (m + k) c) = a.
Proof.
  intros Ha. pose proof Ha as [Hlen Hrows]. unfold np_resize.
  rewrite firstn_map, firstn_seq_app.
  apply rows_nth_ext; [now rewrite length_map, length_seq|].
  intros i Hi. rewrite length_map, length_seq in Hi.
  rewrite nth_indep with (d' := map (fun j => nth ((0 * c + j) mod length (concat a))
                                                (concat a) 0) (seq 0 c))
    by (now rewrite length_map, length_seq).
  rewrite (map_nth (fun i => map (fun j => nth ((i * c + j) mod length (concat a))
                                             (concat a) 0) (seq 0 c))).
  rewrite seq_nth by assumption. cbn [Nat.add].
  pose proof (has_shape_nth a m c i Ha Hi) as Hrow.
  apply row_nth_ext; [now rewrite length_map, length_seq|].
  intros j Hj. rewrite length_map, length_seq in Hj.
  rewrite nth_indep with (d' := (fun j => nth ((i * c + j) mod length (concat a))
                                              (concat a) 0) 0%nat)
    by (now rewrite length_map, length_seq).
  rewrite (map_nth (fun j => nth ((i * c + j) mod length (concat a)) (concat a) 0)).
  rewrite seq_nth by assumption. cbn [Nat.add].
  rewrite (concat_shape_length a m c Ha).
  rewrite Nat.mod_small by nia.
  now apply (concat_shape_nth a m c).
Qed.

Lemma np_resize_ncols (a : matrix) (r c : nat) :
  (0 < r)%nat -> ncols (np_resize a r c) = c.
Proof.
  intros Hr. unfold np_resize, ncols. destruct r as [|r]; [lia|].
  cbn [seq map hd]. now rewrite length_map, length_seq.
Qed.

(** A value of the shape of its target is assigned as it is. *)
Lemma broadcast_to_same (v : matrix) (k d : nat) :
  has_shape v k d -> (0 < k)%nat -> broadcast_to v k d = Ok v.
Proof.
  intros Hv Hk. pose proof Hv as [Hlen Hrows]. unfold broadcast_to.
  rewrite (has_shape_ncols v k d Hv Hk), Hlen, !Nat.eqb_refl. cbn [orb andb].
  apply (f_equal (@Ok matrix)).
  apply rows_nth_ext; [now rewrite length_map, length_seq|].
  intros i Hi. rewrite length_map, length_seq in Hi.
  set (f := fun i : nat =>
              map (fun j => nth (if (d =? 1)%nat then 0%nat else j)
                                (nth (if (k =? 1)%nat then 0%nat else i) v []) 0)
                  (seq 0 d)).
  change (nth i (map f (seq 0 k)) [] = nth i v []).
  rewrite nth_indep with (d' := f 0%nat) by (now rewrite length_map, length_seq).
  rewrite (map_nth f), seq_nth by assumption. cbn [Nat.add]. unfold f.
  assert (Ei : (if (k =? 1)%nat then 0%nat else i) = i).
  { destruct (Nat.eqb_spec k 1); [lia|reflexivity]. }
  rewrite Ei. pose proof (has_shape_nth v k d i Hv Hi) as Hrow.
  apply row_nth_ext; [now rewrite length_map, length_seq|].
  intros j Hj. rewrite length_map, length_seq in Hj.
  set (g := fun j : nat => nth (if (d =? 1)%nat then 0%nat else j) (nth i v []) 0).
  change (nth j (map g (seq 0 d)) 0 = nth j (nth i v []) 0).
  rewrite nth_indep with (d' := g 0%nat) by (now rewrite length_map, length_seq).
  rewrite (map_nth g), seq_nth by assumption. cbn [Nat.add]. unfold g.
  destruct (Nat.eqb_spec d 1); [|reflexivity].
  now replace j with 0%nat by lia.
Qed.

(** A single row is repeated over the rows of its target. *)
Lemma broadcast_to_row (row : list R) (k : nat) :
  broadcast_to [row] k (length row) = Ok (repeat row k).
Proof.
  unfold broadcast_to. cbn [length ncols hd].
  rewrite !Nat.eqb_refl, orb_true_r. cbn [andb].
  apply (f_equal (@Ok matrix)). cbn [nth].
  assert (Erow : map (fun j => nth (if (length row =? 1)%nat then 0%nat else j) row 0)
                     (seq 0 (length row)) = row).
  { apply row_nth_ext; [now rewrite length_map, length_seq|].
    intros j Hj. rewrite length_map, length_seq in Hj.
    set (g := fun j : nat => nth (if (length row =? 1)%nat then 0%nat else j) row 0).
    change (nth j (map g (seq 0 (length row))) 0 = nth j row 0).
    rewrite nth_indep with (d' := g 0%nat) by (now rewrite length_map, length_seq).
    rewrite (map_nth g), seq_nth by assumption. cbn [Nat.add]. unfold g.
    destruct (Nat.eqb_spec (length row) 1); [|reflexivity].
    now replace j with 0%nat by lia. }
  rewrite Erow. clear Erow.
  generalize 0%nat. induction k as [|k IH]; intros s; [reflexivity|].
  cbn [seq map repeat]. now rewrite IH.
Qed.

Lemma bound_neg (len k : nat) :
  (1 <= k <= len)%nat -> Py.bound len (- Z.of_nat k) = (len - k)%nat.
Proof.
  intros Hk. unfold Py.bound.
  destruct (Z.ltb_spec (- Z.of_nat k) 0); lia.
Qed.

(** The cast keeps the shape. *)
Lemma astype_shape (d : dtype) (v : matrix) (k c : nat) :
  has_shape v k c -> has_shape (astype d v) k c.
Proof.
  destruct d; [|trivial]. intros [Hk Hrows]. split.
  - cbn [astype]. now rewrite length_map.
  - cbn [astype]. apply Forall_map. revert Hrows. apply Forall_impl.
    intros row Hrow. now rewrite length_map.
Qed.

(** Appending [k] rows by [np.resize] and the assignment [m[n:,:] = v] to an
    array of dtype [d]. *)
Lemma append_rows (d : dtype) (a v : matrix) (k : nat) :
  rectangular a -> has_shape v k (ncols a) -> (0 < k)%nat ->
  setitem_rows d (np_resize a (length a + k) (ncols a)) (Z.of_nat (length a)) v
  = Ok (a ++ astype d v).
Proof.
  intros Ha Hv Hk. unfold setitem_rows.
  rewrite np_resize_length, PyFacts.bound_nat.
  replace (Nat.min (length a) (length a + k)) with (length a) by lia.
  replace (length a + k - length a)%nat with k by lia.
  rewrite np_resize_ncols by lia.
  rewrite broadcast_to_same by assumption. cbn [bind].
  now rewrite (np_resize_prefix a (length a) (ncols a) k Ha).
Qed.

(** The same with the slice counted from the end, [m[-k:,:] = v]. *)
Lemma append_rows_from_end (d : dtype) (a v : matrix) (k : nat) :
  rectangular a -> has_shape v k (ncols a) -> (0 < k)%nat ->
  setitem_rows d (np_resize a (length a + k) (ncols a)) (- Z.of_nat k) v
  = Ok (a ++ astype d v).
Proof.
  intros Ha Hv Hk. unfold setitem_rows.
  rewrite np_resize_length, bound_neg by lia.
  replace (length a + k - k)%nat with (length a) by lia.
  replace (length a + k - length a)%nat with k by lia.
  rewrite np_resize_ncols by lia.
  rewrite broadcast_to_same by assumption. cbn [bind].
  now rewrite (np_resize_prefix a (length a) (ncols a) k Ha).
Qed.

Lemma append_zero_rows (a : matrix) (k : nat) :
  rectangular a -> (0 < k)%nat ->
  fill_rows (np_resize a (length a + k) (ncols a)) (- Z.of_nat k) 0
  = a ++ repeat (repeat 0 (ncols a)) k.
Proof.
  intros Ha Hk. unfold fill_rows.
  rewrite np_resize_length, bound_neg by lia.
  replace (length a + k - k)%nat with (length a) by lia.
  replace (length a + k - length a)%nat with k by lia.
  rewrite np_resize_ncols by lia.
  now rewrite (np_resize_prefix a (length a) (ncols a) k Ha).
Qed.

Lemma rectangular_app (a v : matrix) (k : nat) :
  rectangular a -> has_shape v k (ncols a) ->
  rectangular (a ++ v) /\ ncols (a ++ v) = ncols a.
Proof.
  intros Ha Hv.
  assert (Hc : ncols (a ++ v) = ncols a).
  { destruct a as [|row a]; [|reflexivity].
    destruct Hv as [_ Hrows]. destruct v as [|r v]; [reflexivity|].
    now inversion Hrows. }
  split; [|exact Hc]. unfold rectangular. rewrite Hc, length_app.
  destruct Hv as [Hk Hrows]. rewrite Hk.
  apply has_shape_app; [exact Ha|now split].
Qed.

End Arrays.

(** *** The systems of the boundary regimes *)

Section Systems.
Context `{Collaborators}.

Lemma basis_needs_sample (boundary : Boundary) (ts : list R) (b : basis) :
  cubic_curve_basis boundary ts = Ok b -> ts <> [].
Proof.
  intros Hb ->. unfold cubic_curve_basis, cubic_curve_knot in Hb. discriminate.
Qed.

Lemma zero_rows_shape (d k : nat) : has_shape (repeat (repeat 0 d) k) k d.
Proof.
  split; [apply repeat_length|].
  apply Forall_forall. intros row Hrow. apply repeat_spec in Hrow. subst row.
  apply repeat_length.
Qed.

(** X11.  In the NATURAL regime, for a rectangular point array and a basis
    evaluation of the same width as the two second-derivative rows at
    [t[0]] and [t[-1]], [cubic_curve] solves the system whose matrix is the
    basis evaluated at the sample followed by those two rows, and whose
    right-hand side is the points followed by two rows of zeros; it returns
    the curve of the solution, or the solver's error. *)
Theorem cubic_curve_natural_system d rows t tangents ts b N ddn :
  parameter_sample (NdArray d rows) t = Ok ts ->
  cubic_curve_basis NATURAL ts = Ok b ->
  evaluate b ts 0 = Ok N ->
  evaluate b [hd 0 ts; last ts 0] 2 = Ok ddn ->
  rectangular rows -> rectangular N -> has_shape ddn 2 (ncols N) ->
  cubic_curve (NdArray d rows) NATURAL t tangents
  = (cp <- np_linalg_solve (N ++ ddn)
                           (rows ++ [repeat 0 (ncols rows); repeat 0 (ncols rows)]) ;;
     Ok (Curve b cp false)).
Proof.
  intros Ht Hb HN Hddn Hrows HNrect Hshape.
  pose proof (basis_needs_sample _ _ _ Hb) as Hne.
  destruct (baseline_knot ts Hne) as [H0 Hl].
  unfold cubic_curve. rewrite Ht. cbn [bind]. rewrite Hb. cbn [bind].
  rewrite HN. cbn [bind]. rewrite H0, Hl. cbn [bind]. rewrite Hddn.
  cbn [bind shape rows_of dtype_of fst snd].
  rewrite (append_rows_from_end float64 N ddn 2) by (assumption || lia).
  cbn [bind astype]. rewrite (append_zero_rows rows 2) by (assumption || lia).
  reflexivity.
Qed.

(** X12.  In the TANGENT regime, for a rectangular array of [n] points, a
    basis evaluation of [n] rows, two first-derivative rows at [t[0]] and
    [t[-1]] of its width and two tangents of the width of the points,
    [cubic_curve] solves the system whose matrix is the basis evaluation
    followed by the two derivative rows and whose right-hand side is the
    points followed by the two tangents as the point array stores them: as
    they are when the points are a [float64] array, with the fractional
    parts dropped when the points are an [int64] array. *)
Theorem cubic_curve_tangent_system d rows t tangents ts b N dn :
  parameter_sample (NdArray d rows) t = Ok ts ->
  cubic_curve_basis TANGENT ts = Ok b ->
  evaluate b ts 0 = Ok N ->
  evaluate b [hd 0 ts; last ts 0] 1 = Ok dn ->
  rectangular rows -> rectangular N -> length N = length rows ->
  has_shape dn 2 (ncols N) -> has_shape tangents 2 (ncols rows) ->
  storable d tangents ->
  cubic_curve (NdArray d rows) TANGENT t tangents
  = (cp <- np_linalg_solve (N ++ dn) (rows ++ astype d tangents) ;;
     Ok (Curve b cp false)).
Proof.
  intros Ht Hb HN Hdn Hrows HNrect Hlen Hshape Htan _.
  pose proof (basis_needs_sample _ _ _ Hb) as Hne.
  destruct (baseline_knot ts Hne) as [H0 Hl].
  unfold cubic_curve. rewrite Ht. cbn [bind]. rewrite Hb. cbn [bind].
  rewrite HN. cbn [bind]. rewrite H0, Hl. cbn [bind]. rewrite Hdn.
  cbn [bind shape rows_of dtype_of fst snd].
  change (len (NdArray d rows)) with (length rows).
  rewrite (append_rows d rows tangents 2) by (assumption || lia). cbn [bind].
  rewrite <- Hlen.
  rewrite (append_rows float64 N dn 2) by (assumption || lia).
  reflexivity.
Qed.

(** X13.  In the TANGENT regime a tangent matrix of a single row of the width
    of the points is broadcast: under the conditions of X12 on the points
    and the basis evaluation, the right-hand side of the solved system is
    the points followed by that row twice, stored as the dtype of the point
    array stores it, so that both ends get the same tangent. *)
Theorem cubic_curve_tangent_broadcast d rows t tangent ts b N dn :
  parameter_sample (NdArray d rows) t = Ok ts ->
  cubic_curve_basis TANGENT ts = Ok b ->
  evaluate b ts 0 = Ok N ->
  evaluate b [hd 0 ts; last ts 0] 1 = Ok dn ->
  rectangular rows -> rectangular N -> length N = length rows ->
  has_shape dn 2 (ncols N) -> length tangent = ncols rows ->
  storable d [tangent] ->
  cubic_curve (NdArray d rows) TANGENT t [tangent]
  = (cp <- np_linalg_solve (N ++ dn) (rows ++ astype d [tangent; tangent]) ;;
     Ok (Curve b cp false)).
Proof.
  intros Ht Hb HN Hdn Hrows HNrect Hlen Hshape Htan _.
  pose proof (basis_needs_sample _ _ _ Hb) as Hne.
  destruct (baseline_knot ts Hne) as [H0 Hl].
  unfold cubic_curve. rewrite Ht. cbn [bind]. rewrite Hb. cbn [bind].
  rewrite HN. cbn [bind]. rewrite H0, Hl. cbn [bind]. rewrite Hdn.
  cbn [bind shape rows_of dtype_of fst snd].
  change (len (NdArray d rows)) with (length rows).
  assert (Ex : setitem_rows d (np_resize rows (length rows + 2) (ncols rows))
                            (Z.of_nat (length rows)) [tangent]
               = Ok (rows ++ astype d [tangent; tangent])).
  { unfold setitem_rows.
    rewrite np_resize_length, PyFacts.bound_nat.
    replace (Nat.min (length rows) (length rows + 2)) with (length rows) by lia.
    replace (length rows + 2 - length rows)%nat with 2%nat by lia.
    rewrite np_resize_ncols by lia. rewrite <- Htan, broadcast_to_row.
    cbn [bind repeat]. rewrite Htan.
    now rewrite (np_resize_prefix rows (length rows) (ncols rows) 2 Hrows). }
  rewrite Ex. cbn [bind]. rewrite <- Hlen.
  rewrite (append_rows float64 N dn 2) by (assumption || lia).
  reflexivity.
Qed.

(** X14.  In the TANGENTNATURAL regime, under the like conditions,
    [cubic_curve] solves the system whose matrix is the basis evaluation
    followed by the first-derivative row at [t[0]] and the second-derivative
    row at [t[-1]], and whose right-hand side is the points followed by the
    tangent, as the dtype of the point array stores it, and by a row of
    zeros. *)
Theorem cubic_curve_tangentnatural_system d rows t tangents ts b N dn ddn :
  parameter_sample (NdArray d rows) t = Ok ts ->
  cubic_curve_basis TANGENTNATURAL ts = Ok b ->
  evaluate b ts 0 = Ok N ->
  evaluate b [hd 0 ts] 1 = Ok dn ->
  evaluate b [last ts 0] 2 = Ok ddn ->
  rectangular rows -> rectangular N -> length N = length rows ->
  has_shape dn 1 (ncols N) -> has_shape ddn 1 (ncols N) ->
  has_shape tangents 1 (ncols rows) ->
  storable d tangents ->
  cubic_curve (NdArray d rows) TANGENTNATURAL t tangents
  = (cp <- np_linalg_solve (N ++ dn ++ ddn)
                           (rows ++ astype d tangents ++ [repeat 0 (ncols rows)]) ;;
     Ok (Curve b cp false)).
Proof.
  intros Ht Hb HN Hdn Hddn Hrows HNrect Hlen Hsdn Hsddn Htan _.
  pose proof (basis_needs_sample _ _ _ Hb) as Hne.
  destruct (baseline_knot ts Hne) as [H0 Hl].
  pose proof (astype_shape d tangents 1 (ncols rows) Htan) as Hcast.
  destruct (rectangular_app N dn 1 HNrect Hsdn) as [HN1 HcN1].
  destruct (rectangular_app rows (astype d tangents) 1 Hrows Hcast) as [Hx1 Hcx1].
  assert (HlenN1 : length (N ++ dn) = (length N + 1)%nat).
  { rewrite length_app. destruct Hsdn as [-> _]. reflexivity. }
  assert (Hlenx1 : length (rows ++ astype d tangents) = (length rows + 1)%nat).
  { rewrite length_app. destruct Hcast as [-> _]. reflexivity. }
  unfold cubic_curve. rewrite Ht. cbn [bind]. rewrite Hb. cbn [bind].
  rewrite HN. cbn [bind]. rewrite H0. cbn [bind]. rewrite Hdn.
  cbn [bind shape rows_of dtype_of fst snd].
  change (len (NdArray d rows)) with (length rows).
  rewrite (append_rows d rows tangents 1) by (assumption || lia). cbn [bind].
  rewrite <- Hlen.
  rewrite (append_rows float64 N dn 1) by (assumption || lia). cbn [bind astype].
  rewrite Hl. cbn [bind]. rewrite Hddn. cbn [bind shape rows_of dtype_of fst snd].
  rewrite <- HcN1 in Hsddn.
  rewrite (append_rows_from_end float64 (N ++ dn) ddn 1) by (assumption || lia).
  cbn [bind astype].
  rewrite (append_zero_rows (rows ++ astype d tangents) 1) by (assumption || lia).
  rewrite Hcx1. cbn [repeat np_matrix rows_of]. now rewrite <- !app_assoc.
Qed.

End Systems.

(** *** The default parameter values *)

Section DefaultParameters.







End DefaultParameters.

(** *** Knot counts and short samples *)

Section KnotCounts.
Context `{Collaborators}.

Lemma insert_sorted_perm (a : R) (l : list R) : Permutation (insert_sorted a l) (a :: l).
Proof.
  induction l as [|b l IH]; cbn [insert_sorted]; [reflexivity|].
  destruct (Rle_dec a b); [reflexivity|].
  rewrite IH. apply perm_swap.
Qed.

Lemma sorted_perm (l : list R) : Permutation (sorted l) l.
Proof.
  unfold sorted. induction l as [|a l IH]; cbn [fold_right]; [reflexivity|].
  rewrite insert_sorted_perm. now apply perm_skip.
Qed.

Lemma insert_sorted_Sorted (a : R) (l : list R) :
  Sorted Rle l -> Sorted Rle (insert_sorted a l).
Proof.
  induction l as [|b l IH]; intros Hs; cbn [insert_sorted].
  - repeat constructor.
  - destruct (Rle_dec a b) as [Hle|Hgt].
    + constructor; [assumption|]. now constructor.
    + apply Sorted_inv in Hs. destruct Hs as [Hs Hhd].
      constructor; [now apply IH|].
      destruct l as [|c l]; cbn [insert_sorted].
      * constructor. lra.
      * destruct (Rle_dec a c); constructor; [lra|].
        now inversion Hhd.
Qed.

Lemma sorted_Sorted (l : list R) : Sorted Rle (sorted l).
Proof.
  unfold sorted. induction l as [|a l IH]; cbn [fold_right]; [constructor|].
  now apply insert_sorted_Sorted.
Qed.

Lemma delitem_valid {A : Type} (l : list A) (i : Z) (j : nat) :
  Py.index (length l) i = Some j ->
  exists l', Py.delitem l i = Ok l' /\ S (length l') = length l.
Proof.
  intros Hi. unfold Py.delitem. rewrite Hi. eexists. split; [reflexivity|].
  apply PyFacts.index_lt in Hi.
  rewrite length_app, length_firstn, length_skipn. lia.
Qed.

Lemma interior_slice (ts : list R) :
  Py.slice ts (Some 1%Z) (Some (-1)%Z) = removelast (tl ts).
Proof.
  destruct ts as [|a ts]; [reflexivity|].
  unfold Py.slice.
  pose proof (bound_neg (length (a :: ts)) 1 ltac:(simpl; lia)) as E.
  change (- Z.of_nat 1)%Z with (-1)%Z in E. rewrite E.
  pose proof (PyFacts.bound_nat (length (a :: ts)) 1) as E1.
  change (Z.of_nat 1) with 1%Z in E1. rewrite E1.
  cbn [length tl]. replace (Nat.min 1 (S (length ts))) with 1%nat by lia.
  cbn [skipn]. rewrite removelast_firstn_len. f_equal. lia.
Qed.

(** The number of knots each regime leaves of a sample of [n >= 1] values
    before the PERIODIC overwrites, which keep the number. *)
Lemma cubic_curve_knot_length (boundary : Boundary) (ts : list R) :
  ts <> [] ->
  exists knot,
    cubic_curve_knot boundary ts = Ok knot /\
    length knot = match boundary with
                  | FREE => (length ts + 4)%nat
                  | HERMITE => (length ts + 6 + (length ts - 2))%nat
                  | _ => (length ts + 6)%nat
                  end.
Proof.
  intros Hne.
  destruct (baseline_knot ts Hne) as [H0 Hl].
  assert (Hpad : length (repeat (hd 0 ts) 3 ++ ts ++ repeat (last ts 0) 3)
                 = (length ts + 6)%nat).
  { rewrite !length_app, !repeat_length. lia. }
  unfold cubic_curve_knot. rewrite H0, Hl. cbn [bind].
  destruct boundary; try (eexists; split; [reflexivity|exact Hpad]).
  - (* FREE *)
    set (knot := repeat (hd 0 ts) 3 ++ ts ++ repeat (last ts 0) 3) in *.
    assert (Hts : (1 <= length ts)%nat).
    { destruct ts; [contradiction|simpl; lia]. }
    assert (Hi1 : Py.index (length knot) (-5) = Some (length knot - 5)%nat).
    { change (-5)%Z with (- Z.of_nat 5)%Z. apply PyFacts.index_neg. lia. }
    destruct (delitem_valid knot (-5) _ Hi1) as [k1 [E1 Hk1]]. rewrite E1. cbn [bind].
    assert (Hi2 : Py.index (length k1) 4 = Some 4%nat).
    { change 4%Z with (Z.of_nat 4). apply PyFacts.index_nat. lia. }
    destruct (delitem_valid k1 4 _ Hi2) as [k2 [E2 Hk2]].
    exists k2. split; [exact E2|lia].
  - (* HERMITE *)
    eexists. split; [reflexivity|].
    rewrite (Permutation_length (sorted_perm _)), length_app, Hpad, interior_slice.
    destruct ts as [|a [|c ts]]; [contradiction|reflexivity|].
    cbn [tl]. rewrite removelast_firstn_len, length_firstn. simpl. lia.
Qed.

(** X16.  Outside the PERIODIC regime [cubic_curve] gets its basis exactly
    when the sample has at least 4 values in the FREE regime and at least 2
    in the other regimes.  The basis then has order 4 and exactly as many
    functions (knots less the order) as the system has rows: [n] for FREE,
    [n + 2] for NATURAL, TANGENT and TANGENTNATURAL, and [2 n] for HERMITE.
    A shorter sample, of at least one value, leaves fewer than 8 knots: the
    basis constructor raises ValueError, and so does [cubic_curve] on every
    input with that sample. *)
Theorem cubic_curve_basis_size (boundary : Boundary) (ts : list R) :
  ts <> [] ->
  boundary <> PERIODIC ->
  ((fewest_values boundary <= length ts)%nat ->
   exists b,
     cubic_curve_basis boundary ts = Ok b /\
     order b = 4%nat /\ periodic b = None /\
     num_functions b = (length ts + constraint_rows boundary (length ts))%nat) /\
  ((length ts < fewest_values boundary)%nat ->
   cubic_curve_basis boundary ts
   = Raise (ValueError "knot vector has too few elements") /\
   forall x t tangents,
     parameter_sample x t = Ok ts ->
     cubic_curve x boundary t tangents
     = Raise (ValueError "knot vector has too few elements")).
Proof.
  intros Hne Hper.
  destruct (cubic_curve_knot_length boundary ts Hne) as [knot [Hk Hlen]].
  assert (Hts : (1 <= length ts)%nat).
  { destruct ts; [contradiction|simpl; lia]. }
  assert (Hb : cubic_curve_basis boundary ts = BSplineBasis 4 knot None).
  { unfold cubic_curve_basis. rewrite Hk. cbn [bind].
    destruct boundary; try reflexivity. contradiction. }
  split.
  - intros Hfew. exists (Basis 4 knot None). split.
    + rewrite Hb. apply BSplineBasis_enough.
      destruct boundary; cbn [fewest_values] in Hfew; lia.
    + repeat split. unfold num_functions. cbn [knots order].
      destruct boundary; try contradiction;
        cbn [fewest_values constraint_rows] in *; lia.
  - intros Hfew.
    assert (E : cubic_curve_basis boundary ts
                = Raise (ValueError "knot vector has too few elements")).
    { rewrite Hb. apply BSplineBasis_too_few.
      destruct boundary; cbn [fewest_values] in Hfew; lia. }
    split; [exact E|].
    intros x t tangents Ht. unfold cubic_curve. rewrite Ht. cbn [bind].
    rewrite E. reflexivity.
Qed.

(** X17.  In the HERMITE regime the knot vector of a sample of [n >= 2]
    values holds the padded sequence together with a second copy of every
    value but the first and the last, in non-decreasing order: [2 n + 4]
    knots in all. *)
Theorem hermite_knots (ts : list R) :
  (2 <= length ts)%nat ->
  exists knot,
    cubic_curve_basis HERMITE ts = Ok (Basis 4 knot None) /\
    Sorted Rle knot /\
    Permutation knot (padded ts ++ removelast (tl ts)) /\
    length knot = (2 * length ts + 4)%nat.
Proof.
  intros Hlen.
  assert (Hne : ts <> []) by (destruct ts; simpl in *; [lia|discriminate]).
  destruct (baseline_knot ts Hne) as [H0 Hl].
  assert (Hcount : length (sorted (padded ts ++ removelast (tl ts)))
                   = (2 * length ts + 4)%nat).
  { rewrite (Permutation_length (sorted_perm _)), length_app, padded_length.
    destruct ts as [|a [|c ts]]; simpl in Hlen; try lia.
    cbn [tl]. rewrite removelast_firstn_len, length_firstn. simpl. lia. }
  exists (sorted (padded ts ++ removelast (tl ts))). split.
  - unfold cubic_curve_basis, cubic_curve_knot. rewrite H0, Hl. cbn [bind].
    rewrite interior_slice. fold (padded ts).
    apply BSplineBasis_enough. lia.
  - split; [apply sorted_Sorted|]. split; [apply sorted_perm|exact Hcount].
Qed.

End KnotCounts.

Section ShortSamples.
Context `{Collaborators}.

(** X18.  [cubic_curve] raises IndexError on an empty list of parameter
    values in every regime, and in the PERIODIC regime on every sample of
    fewer than three values, whether supplied or derived from the points; in
    both cases before any collaborator is called. *)
Theorem cubic_curve_short_sample (x : matrix_like) (tangents : matrix) :
  (forall boundary, cubic_curve x boundary (Some []) tangents = Raise IndexError) /\
  (forall t ts,
     parameter_sample x t = Ok ts -> (length ts < 3)%nat ->
     cubic_curve x PERIODIC t tangents = Raise IndexError).
Proof.
  split.
  - intros boundary. reflexivity.
  - intros t ts Ht Hlen. unfold cubic_curve. rewrite Ht. cbn [bind].
    destruct ts as [|a [|c [|d ts]]]; simpl in Hlen; try lia; reflexivity.
Qed.

End ShortSamples.

(** ** The further statements at concrete inputs *)

Section TableFurther.
#[local] Existing Instance table.

Lemma two_points_rectangular : rectangular [[0; 0]; [1; 0]].
Proof. repeat constructor. Qed.

Lemma bezier_values_rectangular : rectangular [[1; 0; 0; 0]; [0; 0; 0; 1]].
Proof. repeat constructor. Qed.

Lemma table_bezier_d2_at_end :
  evaluate (Basis 4 bezier_knots None) [1] 2 = Ok [[0; 6; -12; 6]].
Proof. table_run. reflexivity. Qed.

(** The cast to [int64] leaves an integer as it is and drops the fractional
    part of a positive value. *)
Lemma trunc_IZR (z : Z) : trunc (IZR z) = z.
Proof.
  unfold trunc. destruct (Rle_dec 0 (IZR z)); [apply ZfloorZ|].
  apply Zceil_eq. lra.
Qed.

Lemma trunc_floor (z : Z) (v : R) :
  0 <= v -> IZR z <= v < IZR z + 1 -> trunc v = z.
Proof.
  intros Hv Hz. unfold trunc. destruct (Rle_dec 0 v); [|contradiction].
  now apply Zfloor_eq.
Qed.

Lemma fractional_tangents_stored :
  astype int64 [[3 / 2; 1 / 2]; [3 / 2; 1 / 2]] = [[1; 0]; [1; 0]].
Proof.
  cbn [astype map].
  rewrite (trunc_floor 1 (3 / 2)) by lra.
  rewrite (trunc_floor 0 (1 / 2)) by lra.
  reflexivity.
Qed.

Lemma polygon_relative_steps_witness :
  (0 < length [0; 0])%nat /\
  Forall (fun q : list R => length q = length [0; 0]) [[1; 0]; [1; 0]] /\
  exists b cps,
    polygon [[0; 0]; [1; 0]; [1; 0]] true = Ok (Curve b cps false) /\
    vsub (nth 1 cps []) (nth 0 cps []) = [1; 0] /\
    vsub (nth 2 cps []) (nth 1 cps []) = [1; 0].
Proof.
  assert (H1 : (0 < length [0; 0])%nat) by (simpl; lia).
  assert (H2 : Forall (fun q : list R => length q = length [0; 0]) [[1; 0]; [1; 0]])
    by (repeat constructor).
  destruct (polygon_relative_steps [0; 0] [1; 0] [[1; 0]] H1 H2)
    as [b [cps [E [_ [_ Hstep]]]]].
  split; [exact H1|]. split; [exact H2|].
  exists b, cps. split; [exact E|]. split.
  - apply (Hstep 0%nat). simpl. lia.
  - apply (Hstep 1%nat). simpl. lia.
Defined.

Lemma cubic_curve_natural_system_witness :
  parameter_sample (NdArray float64 [[0; 0]; [1; 0]]) (Some [0; 1]) = Ok [0; 1] /\
  cubic_curve_basis NATURAL [0; 1] = Ok (Basis 4 bezier_knots None) /\
  rectangular [[0; 0]; [1; 0]] /\
  rectangular [[1; 0; 0; 0]; [0; 0; 0; 1]] /\
  has_shape [[6; -12; 6; 0]; [0; 6; -12; 6]] 2 (ncols [[1; 0; 0; 0]; [0; 0; 0; 1]]) /\
  cubic_curve (NdArray float64 [[0; 0]; [1; 0]]) NATURAL (Some [0; 1]) []
  = (cp <- np_linalg_solve
             ([[1; 0; 0; 0]; [0; 0; 0; 1]] ++ [[6; -12; 6; 0]; [0; 6; -12; 6]])
             ([[0; 0]; [1; 0]] ++ [repeat 0 2; repeat 0 2]) ;;
     Ok (Curve (Basis 4 bezier_knots None) cp false)).
Proof.
  assert (H1 : parameter_sample (NdArray float64 [[0; 0]; [1; 0]]) (Some [0; 1])
               = Ok [0; 1]) by reflexivity.
  assert (H2 : cubic_curve_basis NATURAL [0; 1] = Ok (Basis 4 bezier_knots None))
    by (apply bezier_basis; auto).
  assert (H3 : has_shape [[6; -12; 6; 0]; [0; 6; -12; 6]] 2
                         (ncols [[1; 0; 0; 0]; [0; 0; 0; 1]]))
    by (repeat constructor).
  repeat split; try assumption; try (repeat constructor; fail).
  exact (cubic_curve_natural_system float64 [[0; 0]; [1; 0]] (Some [0; 1]) []
           [0; 1] _ _ _
           H1 H2 table_bezier_at_ends table_bezier_d2_at_ends
           two_points_rectangular bezier_values_rectangular H3).
Defined.

(** On an [int64] point array the tangents [(3/2, 1/2)] are stored as
    [(1, 0)]: the curve is the one of the tangents [(1, 0)]. *)
Lemma cubic_curve_tangent_system_witness :
  parameter_sample (NdArray int64 [[0; 0]; [1; 0]]) (Some [0; 1]) = Ok [0; 1] /\
  cubic_curve_basis TANGENT [0; 1] = Ok (Basis 4 bezier_knots None) /\
  has_shape [[-3; 3; 0; 0]; [0; 0; -3; 3]] 2 (ncols [[1; 0; 0; 0]; [0; 0; 0; 1]]) /\
  has_shape [[3 / 2; 1 / 2]; [3 / 2; 1 / 2]] 2 (ncols [[0; 0]; [1; 0]]) /\
  storable int64 [[3 / 2; 1 / 2]; [3 / 2; 1 / 2]] /\
  astype int64 [[3 / 2; 1 / 2]; [3 / 2; 1 / 2]] = [[1; 0]; [1; 0]] /\
  cubic_curve (NdArray int64 [[0; 0]; [1; 0]]) TANGENT (Some [0; 1])
              [[3 / 2; 1 / 2]; [3 / 2; 1 / 2]]
  = Ok (Curve (Basis 4 bezier_knots None) tangent_solution false).
Proof.
  assert (H1 : parameter_sample (NdArray int64 [[0; 0]; [1; 0]]) (Some [0; 1])
               = Ok [0; 1]) by reflexivity.
  assert (H2 : cubic_curve_basis TANGENT [0; 1] = Ok (Basis 4 bezier_knots None))
    by (apply bezier_basis; auto).
  assert (H3 : has_shape [[-3; 3; 0; 0]; [0; 0; -3; 3]] 2
                         (ncols [[1; 0; 0; 0]; [0; 0; 0; 1]]))
    by (repeat constructor).
  assert (H4 : has_shape [[3 / 2; 1 / 2]; [3 / 2; 1 / 2]] 2 (ncols [[0; 0]; [1; 0]]))
    by (repeat constructor).
  assert (H5 : storable int64 [[3 / 2; 1 / 2]; [3 / 2; 1 / 2]])
    by (repeat constructor; lra).
  split; [exact H1|]. split; [exact H2|]. split; [exact H3|].
  split; [exact H4|]. split; [exact H5|].
  split; [exact fractional_tangents_stored|].
  rewrite (cubic_curve_tangent_system int64 [[0; 0]; [1; 0]] (Some [0; 1])
             [[3 / 2; 1 / 2]; [3 / 2; 1 / 2]] [0; 1] _ _ _
             H1 H2 table_bezier_at_ends table_bezier_d1_at_ends
             two_points_rectangular bezier_values_rectangular eq_refl H3 H4 H5).
  rewrite fractional_tangents_stored.
  table_run. reflexivity.
Defined.

Lemma cubic_curve_tangent_broadcast_witness :
  parameter_sample (NdArray float64 [[0; 0]; [1; 0]]) (Some [0; 1]) = Ok [0; 1] /\
  cubic_curve_basis TANGENT [0; 1] = Ok (Basis 4 bezier_knots None) /\
  length [1; 0] = ncols [[0; 0]; [1; 0]] /\
  storable float64 [[1; 0]] /\
  cubic_curve (NdArray float64 [[0; 0]; [1; 0]]) TANGENT (Some [0; 1]) [[1; 0]]
  = (cp <- np_linalg_solve
             ([[1; 0; 0; 0]; [0; 0; 0; 1]] ++ [[-3; 3; 0; 0]; [0; 0; -3; 3]])
             ([[0; 0]; [1; 0]] ++ [[1; 0]; [1; 0]]) ;;
     Ok (Curve (Basis 4 bezier_knots None) cp false)).
Proof.
  assert (H1 : parameter_sample (NdArray float64 [[0; 0]; [1; 0]]) (Some [0; 1])
               = Ok [0; 1]) by reflexivity.
  assert (H2 : cubic_curve_basis TANGENT [0; 1] = Ok (Basis 4 bezier_knots None))
    by (apply bezier_basis; auto).
  assert (H3 : has_shape [[-3; 3; 0; 0]; [0; 0; -3; 3]] 2
                         (ncols [[1; 0; 0; 0]; [0; 0; 0; 1]]))
    by (repeat constructor).
  split; [exact H1|]. split; [exact H2|]. split; [reflexivity|].
  split; [exact I|].
  exact (cubic_curve_tangent_broadcast float64 [[0; 0]; [1; 0]] (Some [0; 1])
           [1; 0] [0; 1]
           _ _ _ H1 H2 table_bezier_at_ends table_bezier_d1_at_ends
           two_points_rectangular bezier_values_rectangular eq_refl H3 eq_refl I).
Defined.

Lemma cubic_curve_tangentnatural_system_witness :
  parameter_sample (NdArray float64 [[0; 0]; [1; 0]]) (Some [0; 1]) = Ok [0; 1] /\
  cubic_curve_basis TANGENTNATURAL [0; 1] = Ok (Basis 4 bezier_knots None) /\
  has_shape [[-3; 3; 0; 0]] 1 (ncols [[1; 0; 0; 0]; [0; 0; 0; 1]]) /\
  has_shape [[0; 6; -12; 6]] 1 (ncols [[1; 0; 0; 0]; [0; 0; 0; 1]]) /\
  has_shape [[1; 0]] 1 (ncols [[0; 0]; [1; 0]]) /\
  storable float64 [[1; 0]] /\
  cubic_curve (NdArray float64 [[0; 0]; [1; 0]]) TANGENTNATURAL (Some [0; 1]) [[1; 0]]
  = (cp <- np_linalg_solve
             ([[1; 0; 0; 0]; [0; 0; 0; 1]] ++ [[-3; 3; 0; 0]] ++ [[0; 6; -12; 6]])
             ([[0; 0]; [1; 0]] ++ [[1; 0]] ++ [repeat 0 2]) ;;
     Ok (Curve (Basis 4 bezier_knots None) cp false)).
Proof.
  assert (H1 : parameter_sample (NdArray float64 [[0; 0]; [1; 0]]) (Some [0; 1])
               = Ok [0; 1]) by reflexivity.
  assert (H2 : cubic_curve_basis TANGENTNATURAL [0; 1]
               = Ok (Basis 4 bezier_knots None))
    by (apply bezier_basis; auto).
  assert (H3 : has_shape [[-3; 3; 0; 0]] 1 (ncols [[1; 0; 0; 0]; [0; 0; 0; 1]]))
    by (repeat constructor).
  assert (H4 : has_shape [[0; 6; -12; 6]] 1 (ncols [[1; 0; 0; 0]; [0; 0; 0; 1]]))
    by (repeat constructor).
  assert (H5 : has_shape [[1; 0]] 1 (ncols [[0; 0]; [1; 0]]))
    by (repeat constructor).
  split; [exact H1|]. split; [exact H2|]. split; [exact H3|].
  split; [exact H4|]. split; [exact H5|]. split; [exact I|].
  exact (cubic_curve_tangentnatural_system float64 [[0; 0]; [1; 0]] (Some [0; 1])
           [[1; 0]] [0; 1] _ _ _ _ H1 H2 table_bezier_at_ends
           table_bezier_d1_at_start table_bezier_d2_at_end two_points_rectangular
           bezier_values_rectangular eq_refl H3 H4 H5 I).
Defined.

Lemma cubic_curve_basis_size_witness :
  [0; 1; 2; 3] <> [] /\ FREE <> PERIODIC /\
  (exists b,
     cubic_curve_basis FREE [0; 1; 2; 3] = Ok b /\ num_functions b = 4%nat) /\
  cubic_curve_basis FREE [0; 1; 2]
  = Raise (ValueError "knot vector has too few elements").
Proof.
  assert (H1 : [0; 1; 2; 3] <> []) by discriminate.
  assert (H2 : FREE <> PERIODIC) by discriminate.
  assert (H3 : [0; 1; 2] <> []) by discriminate.
  destruct (cubic_curve_basis_size FREE [0; 1; 2; 3] H1 H2) as [Hbuilt _].
  destruct (cubic_curve_basis_size FREE [0; 1; 2] H3 H2) as [_ Hshort].
  destruct (Hbuilt ltac:(simpl; lia)) as [b [Hb [_ [_ Hn]]]].
  destruct (Hshort ltac:(simpl; lia)) as [E _].
  split; [exact H1|]. split; [exact H2|]. split; [|exact E].
  exists b. split; assumption.
Defined.

Lemma hermite_knots_witness :
  (2 <= length [0; 1; 2])%nat /\
  exists knot,
    cubic_curve_basis HERMITE [0; 1; 2] = Ok (Basis 4 knot None) /\
    length knot = 10%nat.
Proof.
  assert (H1 : (2 <= length [0; 1; 2])%nat) by (simpl; lia).
  destruct (hermite_knots [0; 1; 2] H1) as [knot [Hb [_ [_ Hlen]]]].
  split; [exact H1|]. exists knot. split; assumption.
Defined.

End TableFurther.
